(** * account_gen.py: batch provisioning of Onezone / LUMA accounts

    A shallow embedding of [account_gen.py] and the properties of its
    provisioning pipeline.  Python integers are [Z], Python strings are
    [string], tuples are products, dictionaries are [gmap]s, and the
    effects of the script (REST calls, logging, the output file, raised
    exceptions) are threaded through a state-and-exception monad over an
    explicit [world].

    The remote services are a parameter: a function from the calls made so
    far and the request at hand to the response.  A service always
    answers (connection failures and timeouts are outside the model); a
    JSON response body is an object with string members or some other JSON
    value; and opening the output file and writing to it succeed. *)

From Stdlib Require Import ZArith Ascii.
From stdpp Require Import base numbers list list_numbers strings pretty gmap.

Local Open Scope Z_scope.

(** ** Python string built-ins used by the script *)

Module Py.

(** [str(i)] for an [int]: the decimal representation, with a leading
    minus sign for negative numbers. *)
Definition str (i : Z) : string := pretty i.

(** [len(s)] *)
Definition len (s : string) : nat := String.length s.

Fixpoint zeros (n : nat) : string :=
  match n with
  | O => ""
  | S n => String "0" (zeros n)
  end.

Definition is_sign (c : ascii) : bool :=
  bool_decide (c = "+"%char) || bool_decide (c = "-"%char).

(** [s.zfill(width)]: pad with zeros on the left up to [width]; a leading
    sign stays in front of the padding; a string that is already long
    enough is returned unchanged. *)
Definition zfill (width : nat) (s : string) : string :=
  if bool_decide (width ≤ len s)%nat then s
  else
    let fill := (width - len s)%nat in
    match s with
    | String c rest =>
        if is_sign c then String c (zeros fill +:+ rest)
        else zeros fill +:+ s
    | EmptyString => zeros fill
    end.

(** [range(low, high)] *)
Definition range (low high : Z) : list Z := seqZ low (high - low).

(** [sep.join(items)] *)
Fixpoint join (sep : string) (items : list string) : string :=
  match items with
  | [] => ""
  | [x] => x
  | x :: rest => x +:+ sep +:+ join sep rest
  end.

(** [s.split(c)] for a one-character separator: always at least one
    piece. *)
Fixpoint split (c : ascii) (s : string) : list string :=
  match s with
  | EmptyString => [""]
  | String a rest =>
      if bool_decide (a = c) then "" :: split c rest
      else match split c rest with
           | piece :: pieces => String a piece :: pieces
           | [] => [String a ""]
           end
  end.

(** [s.rsplit(c, 1)]: split once at the last occurrence of [c]; a single
    piece, the string itself, when [c] does not occur. *)
Fixpoint rsplit1 (c : ascii) (s : string) : list string :=
  match s with
  | EmptyString => [""]
  | String a rest =>
      match rsplit1 c rest with
      | [p; q] => [String a p; q]
      | _ => if bool_decide (a = c) then [""; rest] else [s]
      end
  end.

(** [c in s] for a one-character [c]. *)
Fixpoint contains (c : ascii) (s : string) : bool :=
  match s with
  | EmptyString => false
  | String a rest => bool_decide (a = c) || contains c rest
  end.

(** [c.isdigit()] and the value of a decimal digit. *)
Definition is_digit (c : ascii) : bool :=
  match Ascii.is_nat c with Some _ => true | None => false end.

Definition digit_value (c : ascii) : Z :=
  match Ascii.is_nat c with Some n => Z.of_nat n | None => 0 end.

Fixpoint all_digits (s : string) : bool :=
  match s with
  | EmptyString => true
  | String a rest => is_digit a && all_digits rest
  end.

(** [int(s)] on an optional minus sign followed by decimal digits. *)
Fixpoint int_digits (acc : Z) (s : string) : Z :=
  match s with
  | EmptyString => acc
  | String a rest => int_digits (10 * acc + digit_value a) rest
  end.

Definition int (s : string) : Z :=
  match s with
  | String "-" rest => - int_digits 0 rest
  | _ => int_digits 0 s
  end.

(** [s.lower()] on ASCII letters, as used for header names. *)
Definition lower_ascii (a : ascii) : ascii :=
  let n := N_of_ascii a in
  if ((65 <=? n) && (n <=? 90))%N then ascii_of_N (n + 32) else a.

Fixpoint lower (s : string) : string :=
  match s with
  | EmptyString => ""
  | String a rest => String (lower_ascii a) (lower rest)
  end.

End Py.

(** ** REST requests and responses (the [requests] library) *)

Inductive method := GET | POST | PUT.

(** The [auth=] argument: absent, or [HTTPBasicAuth(username, password)]. *)
Inductive auth :=
| NoAuth
| HTTPBasicAuth (username password : string).

(** The [json=] request bodies the script builds. *)
Inductive jvalue :=
| JInt (i : Z)
| JStr (s : string).

Inductive json :=
| JObj (members : list (string * jvalue))
| JArr (items : list (list (string * jvalue))).

Record request := Request {
  req_method : method;
  req_url : string;
  req_json : option json;
  req_auth : auth;
  req_verify : bool    (* [verify=False] disables TLS verification *)
}.

(** What [r.json()] gives for a body that is JSON: an object, here with
    string members, or some other JSON value (an array, a string, a number,
    a boolean or null), which a member name cannot index. *)
Inductive json_reply :=
| JsonObject (members : gmap string string)
| JsonOther.

(** What the script reads of a response: [status_code], [text],
    [json()] (absent when the body is not JSON) and [headers] (a
    case-insensitive dictionary, stored under lower-cased names). *)
Record response := Response {
  status_code : Z;
  text : string;
  json_body : option json_reply;
  headers : gmap string string
}.

Inductive exn :=
| HTTPError (res : response)       (* raised by [raise_for_status] *)
| JSONDecodeError                  (* [r.json()] on a non-JSON body *)
| KeyError (key : string)          (* missing dictionary key *)
| TypeError                        (* [[key]] on a JSON value that is no object *)
| ValueError (msg : string).       (* tuple unpacking of the wrong size *)

Inductive outcome (A : Type) :=
| Ok (a : A)
| Raise (e : exn).
Arguments Ok {A} a.
Arguments Raise {A} e.

Inductive level := ERROR | INFO.

Inductive file_mode :=
| mode_w_plus     (* "w+": create, or truncate an existing file *)
| mode_a.         (* "a": create, or keep the content and append *)

(** The part of the world the script acts on: the remote calls made so
    far, each with the answer it got, the log, and the files of the
    working directory. *)
Record world := World {
  trace : list (request * response);
  log : list (level * string);
  files : gmap string string
}.

(** The remote services: the answer to a request may depend on every
    call made before it. *)
Definition server := list (request * response) → request → response.

(** The script's global variables. *)
Record config := Config {
  ONEZONE_IP : string;
  LUMA_IP : string;
  ONEZONE_PANEL_AUTH : auth;
  ONEZONE_ADMIN_AUTH : auth;
  PASSWORD : string;
  SPACE_ID : string;
  DEFAULT_SPACE_GID : Z;
  STORAGE_NAME : string;
  STORAGE_TYPE : string;
  LOW_UID_RANGE : Z;
  HIGH_UID_RANGE : Z;
  USER_LOGIN_PREFIX : string
}.

(** The values in the script as published. *)
Definition default_config : config := {|
  ONEZONE_IP := "192.168.1.99";
  LUMA_IP := "192.168.1.200";
  ONEZONE_PANEL_AUTH := HTTPBasicAuth "admin" "password";
  ONEZONE_ADMIN_AUTH := HTTPBasicAuth "admin" "password";
  PASSWORD := "RANDOM";
  SPACE_ID := "Beiqfxp6wquV7rpgNSb4HFNJDnlbLxdjFsfwTX6rrxc";
  DEFAULT_SPACE_GID := 2000;
  STORAGE_NAME := "DESY";
  STORAGE_TYPE := "posix";
  LOW_UID_RANGE := 1001;
  HIGH_UID_RANGE := 1004;
  USER_LOGIN_PREFIX := "XX"
|}.

(** ** The state-and-exception monad of the script *)

Definition M (A : Type) : Type := world → outcome A * world.

#[global] Instance M_ret : MRet M := λ A a w, (Ok a, w).

#[global] Instance M_bind : MBind M := λ A B k m w,
  match m w with
  | (Ok a, w') => k a w'
  | (Raise e, w') => (Raise e, w')
  end.

Definition raise {A} (e : exn) : M A := λ w, (Raise e, w).

(** [for x in xs: body x] *)
Fixpoint for_ {A} (xs : list A) (body : A → M unit) : M unit :=
  match xs with
  | [] => mret tt
  | x :: rest => body x ;; for_ rest body
  end.

(** [LOG.error(msg)] and [LOG.info(msg)], with the level set to DEBUG. *)
Definition LOG_error (msg : string) : M unit :=
  λ w, (Ok tt, {| trace := trace w; log := log w ++ [(ERROR, msg)];
                  files := files w |}).

Definition LOG_info (msg : string) : M unit :=
  λ w, (Ok tt, {| trace := trace w; log := log w ++ [(INFO, msg)];
                  files := files w |}).

(** [open(filename, mode)]: the handle is the file's name; the position is
    the end of the file. *)
Definition open_ (filename : string) (mode : file_mode) : M string :=
  λ w, (Ok filename,
        {| trace := trace w; log := log w;
           files := match mode with
                    | mode_w_plus => <[filename := ""]> (files w)
                    | mode_a => <[filename := default "" (files w !! filename)]>
                                  (files w)
                    end |}).

(** [f.write(s)] *)
Definition write (f : string) (s : string) : M unit :=
  λ w, (Ok tt, {| trace := trace w; log := log w;
                  files := alter (λ old, old +:+ s) f (files w) |}).

(** [Response.raise_for_status()] of [requests]: raises [HTTPError] for
    the client and server error codes 400..599 and returns otherwise. *)
Definition raise_for_status (res : response) : M unit :=
  if bool_decide (400 ≤ status_code res < 600) then raise (HTTPError res)
  else mret tt.

(** [r.json()[key]] *)
Definition json_get (r : response) (key : string) : M string :=
  match json_body r with
  | None => raise JSONDecodeError
  | Some (JsonObject obj) =>
      match obj !! key with
      | Some v => mret v
      | None => raise (KeyError key)
      end
  | Some JsonOther => raise TypeError
  end.

(** [r.headers[name]] *)
Definition headers_get (r : response) (name : string) : M string :=
  match headers r !! Py.lower name with
  | Some v => mret v
  | None => raise (KeyError (Py.lower name))
  end.

(** [_, x = pieces]: unpacking into exactly two names. *)
Definition unpack2 (pieces : list string) : M string :=
  match pieces with
  | [_; x] => mret x
  | [] => raise (ValueError "not enough values to unpack (expected 2, got 0)")
  | [_] => raise (ValueError "not enough values to unpack (expected 2, got 1)")
  | _ => raise (ValueError "too many values to unpack (expected 2)")
  end.

(** ** The script *)

Definition newline : string := String "010"%char "".

(** A Login Record [(uid, login)] and a Provisioned User
    [(uid, login, user_id, user_token)]. *)
Definition login_record : Type := Z * string.
Definition provisioned_user : Type := Z * string * string * string.

(** [map(str, user)] on a Provisioned User. *)
Definition map_str (user : provisioned_user) : list string :=
  let '(uid, login, user_id, user_token) := user in
  [Py.str uid; login; user_id; user_token].

Definition generateUserLogins (low_range high_range : Z) (prefix : string)
  : list login_record :=
  (λ i, (i, prefix +:+ Py.zfill 5 (Py.str i))) <$> Py.range low_range high_range.

Section script.

Variable cfg : config.
Variable srv : server.

Definition ONEZONE_PANEL : string :=
  "https://" +:+ ONEZONE_IP cfg +:+ ":9443/api/v3/onepanel".
Definition ONEZONE : string :=
  "https://" +:+ ONEZONE_IP cfg +:+ ":8443/api/v3/onezone".
Definition LUMA : string :=
  "http://" +:+ LUMA_IP cfg +:+ ":8080/api/v3/luma".

(** [requests.get/post/put]: the call is recorded with the answer of the
    services. *)
Definition send (req : request) : M response :=
  λ w, let res := srv (trace w) req in
       (Ok res, {| trace := trace w ++ [(req, res)]; log := log w;
                   files := files w |}).

Definition requests_get (url : string) (a : auth) (verify : bool) : M response :=
  send (Request GET url None a verify).
Definition requests_post (url : string) (j : json) (a : auth) (verify : bool)
  : M response :=
  send (Request POST url (Some j) a verify).
Definition requests_put (url : string) (j : json) (a : auth) (verify : bool)
  : M response :=
  send (Request PUT url (Some j) a verify).

Definition checkResponse (res : response) : M unit :=
  if bool_decide (status_code res ∉ [200; 201; 202; 204]) then
    LOG_error (text res);;
    raise_for_status res
  else mret tt.

Definition addUsersToOnezone (users : list login_record) : M unit :=
  for_ users (λ user,
    LOG_info ("Adding user: " +:+ user.2);;
    r ← requests_post (ONEZONE_PANEL +:+ "/users")
          (JObj [("username", JStr user.2);
                 ("userRole", JStr "regular");
                 ("password", JStr (PASSWORD cfg))])
          (ONEZONE_PANEL_AUTH cfg) false;
    checkResponse r).

Fixpoint getUserIdsAndTokens_loop (user_logins : list login_record)
    (result : list provisioned_user) : M (list provisioned_user) :=
  match user_logins with
  | [] => mret result
  | user :: rest =>
      r ← requests_get (ONEZONE +:+ "/user")
            (HTTPBasicAuth user.2 (PASSWORD cfg)) false;
      checkResponse r;;
      user_id ← json_get r "userId";
      LOG_info ("Generating user " +:+ user.2 +:+ " access token");;
      r ← requests_post (ONEZONE +:+ "/user/client_tokens") (JObj [])
            (HTTPBasicAuth user.2 (PASSWORD cfg)) false;
      checkResponse r;;
      user_token ← json_get r "token";
      getUserIdsAndTokens_loop rest
        (result ++ [(user.1, user.2, user_id, user_token)])
  end.

Definition getUserIdsAndTokens (user_logins : list login_record)
  : M (list provisioned_user) :=
  getUserIdsAndTokens_loop user_logins [].

Definition addUsersToSpace (space_id : string) (users : list provisioned_user)
  : M unit :=
  for_ users (λ '(uid, login, user_id, user_token),
    let endpoint := ONEZONE +:+ "/spaces/" +:+ space_id +:+ "/users/" +:+ user_id in
    LOG_info ("Adding user " +:+ login +:+ " to space");;
    r ← requests_put endpoint (JObj []) (ONEZONE_ADMIN_AUTH cfg) false;
    checkResponse r).

(** The three calls of the mapping registrar. *)
Definition default_group_request (storage_name space_id : string)
    (default_gid : Z) : request :=
  Request PUT (LUMA +:+ "/admin/spaces/" +:+ space_id +:+ "/default_group")
    (Some (JArr [[("gid", JInt default_gid);
                  ("storageName", JStr storage_name)]]))
    NoAuth false.

Definition register_request (user_id : string) : request :=
  Request POST (LUMA +:+ "/admin/users") (Some (JObj [("id", JStr user_id)]))
    NoAuth true.

Definition credentials_request (storage_name luma_id : string) (uid : Z)
  : request :=
  Request PUT (LUMA +:+ "/admin/users/" +:+ luma_id +:+ "/credentials")
    (Some (JArr [[("storageName", JStr storage_name);
                  ("type", JStr (STORAGE_TYPE cfg));
                  ("uid", JInt uid);
                  ("gid", JInt uid)]]))
    NoAuth true.

(** [_, luma_id = r.headers['Location'].rsplit('/', 1)] *)
Definition extract_luma_id (location : string) : M string :=
  unpack2 (Py.rsplit1 "/" location).

Definition addUserMappingsToLUMA (storage_name : string)
    (users : list provisioned_user) (space_id : string) (default_gid : Z)
  : M unit :=
  r ← send (default_group_request storage_name space_id default_gid);
  checkResponse r;;
  for_ users (λ '(uid, login, user_id, user_token),
    LOG_info ("Adding user " +:+ login +:+ " credentials to LUMA");;
    r ← send (register_request user_id);
    checkResponse r;;
    location ← headers_get r "Location";
    luma_id ← extract_luma_id location;
    r ← send (credentials_request storage_name luma_id uid);
    checkResponse r).

Definition writeUserAccounts (prefix : string) (users : list provisioned_user)
  : M unit :=
  let filename := prefix +:+ "_accounts.csv" in
  f ← open_ filename mode_w_plus;
  for_ users (λ user, write f (Py.join "," (map_str user) +:+ newline)).

(** [disable_warnings()] and [LOG.basicConfig(level=LOG.DEBUG)] only set up
    the logging every [LOG_info] and [LOG_error] above already assumes. *)
Definition main : M unit :=
  let user_logins :=
    generateUserLogins (LOW_UID_RANGE cfg) (HIGH_UID_RANGE cfg)
      (USER_LOGIN_PREFIX cfg) in
  addUsersToOnezone user_logins;;
  users ← getUserIdsAndTokens user_logins;
  addUsersToSpace (SPACE_ID cfg) users;;
  addUserMappingsToLUMA (STORAGE_NAME cfg) users (SPACE_ID cfg)
    (DEFAULT_SPACE_GID cfg);;
  writeUserAccounts (USER_LOGIN_PREFIX cfg) users.

End script.

(** The empty world a run starts from. *)
Definition world0 : world := World [] [] ∅.

(** A service that accepts everything: status 201, a JSON body with an
    identity and a token, and a [Location] header ending in a fresh id. *)
Definition mock_response (n : nat) : response :=
  Response 201 ""
    (Some (JsonObject
             (<["userId" := "id" +:+ Py.str (Z.of_nat n)]>
                (<["token" := "tok" +:+ Py.str (Z.of_nat n)]> ∅))))
    (<["location" := "/api/v3/luma/admin/users/" +:+ Py.str (Z.of_nat n)]> ∅).

Definition mock_server : server := λ tr _, mock_response (length tr).

(** ** The output file, as a reader sees it *)

(** The lines of a text: each ends at a newline character, which is not
    part of the line; characters after the last newline form a last
    line. *)
Fixpoint read_lines (content : string) : list string :=
  match content with
  | EmptyString => []
  | String a rest =>
      if bool_decide (a = "010"%char) then "" :: read_lines rest
      else match read_lines rest with
           | l :: ls => String a l :: ls
           | [] => [String a ""]
           end
  end.

(** One row of the accounts file and the whole file, written out field by
    field. *)
Definition account_line (user : provisioned_user) : string :=
  let '(uid, login, user_id, user_token) := user in
  Py.str uid +:+ "," +:+ login +:+ "," +:+ user_id +:+ "," +:+ user_token
  +:+ newline.

Definition accounts_text (users : list provisioned_user) : string :=
  foldr (λ user rest, account_line user +:+ rest) "" users.

(** A field the accounts file can hold without quoting. *)
Definition delimiter_free (s : string) : Prop :=
  Py.contains "," s = false ∧ Py.contains "010" s = false.

(** A Provisioned User whose login, identity and token are such fields. *)
Definition clean_user (user : provisioned_user) : Prop :=
  delimiter_free user.1.1.2 ∧ delimiter_free user.1.2 ∧ delimiter_free user.2.

(** ** Vocabulary of the statements below *)

(** The status codes [checkResponse] lets pass silently, and the ones
    [raise_for_status] turns into an exception. *)
Definition accepted (res : response) : Prop :=
  status_code res ∈ [200; 201; 202; 204].

Definition rejected (res : response) : Prop :=
  400 ≤ status_code res < 600.

(** The world after an error message was logged. *)
Definition log_error (msg : string) (w : world) : world :=
  {| trace := trace w; log := log w ++ [(ERROR, msg)]; files := files w |}.

(** What the Credential Harvester needs of an answer: an accepted status
    and a JSON object with an identity and a token. *)
Definition harvest_ok (res : response) : Prop :=
  accepted res
  ∧ ∃ obj, json_body res = Some (JsonObject obj)
           ∧ is_Some (obj !! "userId") ∧ is_Some (obj !! "token").

(** What the Storage Mapping Registrar needs of an answer: an accepted
    status and a [Location] header with a slash in it. *)
Definition mapping_ok (res : response) : Prop :=
  accepted res
  ∧ ∃ location, headers res !! "location" = Some location
                ∧ Py.contains "/" location = true.

(** The three calls of the Storage Mapping Registrar, written out field by
    field: the default group of the space on the storage, the registration
    of an identity, and the credentials of a registered id, with one number
    as uid and as gid. *)
Definition default_group_call (cfg : config) (storage_name space_id : string)
    (default_gid : Z) : request :=
  {| req_method := PUT;
     req_url := ("http://" +:+ LUMA_IP cfg +:+ ":8080/api/v3/luma")
                +:+ "/admin/spaces/" +:+ space_id +:+ "/default_group";
     req_json := Some (JArr [[("gid", JInt default_gid);
                              ("storageName", JStr storage_name)]]);
     req_auth := NoAuth;
     req_verify := false |}.

Definition registration_call (cfg : config) (user_id : string) : request :=
  {| req_method := POST;
     req_url := ("http://" +:+ LUMA_IP cfg +:+ ":8080/api/v3/luma")
                +:+ "/admin/users";
     req_json := Some (JObj [("id", JStr user_id)]);
     req_auth := NoAuth;
     req_verify := true |}.

Definition credentials_call (cfg : config) (storage_name luma_id : string)
    (uid : Z) : request :=
  {| req_method := PUT;
     req_url := ("http://" +:+ LUMA_IP cfg +:+ ":8080/api/v3/luma")
                +:+ "/admin/users/" +:+ luma_id +:+ "/credentials";
     req_json := Some (JArr [[("storageName", JStr storage_name);
                              ("type", JStr (STORAGE_TYPE cfg));
                              ("uid", JInt uid);
                              ("gid", JInt uid)]]);
     req_auth := NoAuth;
     req_verify := true |}.

(** The two calls the registrar makes for one user: the registration, then
    the credentials under the id that ends the [Location] header of the
    registration's answer, with the user's uid as uid and as gid. *)
Definition user_mapping_calls (cfg : config) (storage_name : string)
    (user : provisioned_user) (calls : list (request * response)) : Prop :=
  ∃ r1 r2 before luma_id,
    calls = [(registration_call cfg user.1.2, r1);
             (credentials_call cfg storage_name luma_id user.1.1.1, r2)]
    ∧ headers r1 !! "location" = Some (before +:+ "/" +:+ luma_id)
    ∧ Py.contains "/" luma_id = false.

(** Calls none of which was answered with an error status. *)
Definition calm (calls : list (request * response)) : Prop :=
  Forall (λ c, ¬ rejected c.2) calls.

(** A computation that stops at the first error status: it only adds calls
    to the trace, it leaves the files alone, and either none of its calls
    was answered with an error status, or the last one was and the
    computation raised that answer as [HTTPError]. *)
Definition stops_at_error {A} (m : M A) : Prop :=
  ∀ w, ∃ calls,
    trace (m w).2 = trace w ++ calls
    ∧ files (m w).2 = files w
    ∧ match (m w).1 with
      | Ok _ => calm calls
      | Raise e =>
          calm calls
          ∨ ∃ before c, calls = before ++ [c] ∧ calm before
                        ∧ rejected c.2 ∧ e = HTTPError c.2
      end.

(** The same for a computation that ends with the writer: the files are
    left alone whenever it raises. *)
Definition stops_before_writing {A} (m : M A) : Prop :=
  ∀ w, ∃ calls,
    trace (m w).2 = trace w ++ calls
    ∧ match (m w).1 with
      | Ok _ => calm calls
      | Raise e =>
          files (m w).2 = files w
          ∧ (calm calls
             ∨ ∃ before c, calls = before ++ [c] ∧ calm before
                           ∧ rejected c.2 ∧ e = HTTPError c.2)
      end.

(** The uid and login a Provisioned User carries. *)
Definition login_of (user : provisioned_user) : login_record :=
  (user.1.1.1, user.1.1.2).

(** A service that answers its [n]-th call (counting from 0) with the given
    status and no usable body, and accepts every other call. *)
Definition server_failing_at (n : nat) (status : Z) : server :=
  λ tr _, if bool_decide (length tr = n) then Response status "refused" None ∅
          else mock_response (length tr).

(** A service that answers every call with the given status and nothing
    else. *)
Definition server_always (status : Z) : server :=
  λ _ _, Response status "refused" None ∅.

(** A service whose [Location] headers carry a bare id. *)
Definition server_bare_location : server :=
  λ tr _, Response 201 "" None (<["location" := Py.str (Z.of_nat (length tr))]> ∅).

(** The published configuration with an empty uid range. *)
Definition empty_range_config : config := {|
  ONEZONE_IP := ONEZONE_IP default_config;
  LUMA_IP := LUMA_IP default_config;
  ONEZONE_PANEL_AUTH := ONEZONE_PANEL_AUTH default_config;
  ONEZONE_ADMIN_AUTH := ONEZONE_ADMIN_AUTH default_config;
  PASSWORD := PASSWORD default_config;
  SPACE_ID := SPACE_ID default_config;
  DEFAULT_SPACE_GID := DEFAULT_SPACE_GID default_config;
  STORAGE_NAME := STORAGE_NAME default_config;
  STORAGE_TYPE := STORAGE_TYPE default_config;
  LOW_UID_RANGE := 1001;
  HIGH_UID_RANGE := 1001;
  USER_LOGIN_PREFIX := USER_LOGIN_PREFIX default_config
|}.

(** ** The calls of the other stages *)

(** The account creation call of the Account Provisioner. *)
Definition provision_request (cfg : config) (user : login_record) : request :=
  Request POST (ONEZONE_PANEL cfg +:+ "/users")
    (Some (JObj [("username", JStr user.2);
                 ("userRole", JStr "regular");
                 ("password", JStr (PASSWORD cfg))]))
    (ONEZONE_PANEL_AUTH cfg) false.

(** The two calls of the Credential Harvester, made as the user. *)
Definition identity_request (cfg : config) (user : login_record) : request :=
  Request GET (ONEZONE cfg +:+ "/user") None
    (HTTPBasicAuth user.2 (PASSWORD cfg)) false.

Definition token_request (cfg : config) (user : login_record) : request :=
  Request POST (ONEZONE cfg +:+ "/user/client_tokens") (Some (JObj []))
    (HTTPBasicAuth user.2 (PASSWORD cfg)) false.

(** The call of Space Enrollment. *)
Definition enroll_request (cfg : config) (space_id : string)
    (user : provisioned_user) : request :=
  Request PUT
    (ONEZONE cfg +:+ "/spaces/" +:+ space_id +:+ "/users/" +:+ user.1.2)
    (Some (JObj [])) (ONEZONE_ADMIN_AUTH cfg) false.

(** The two calls the harvester makes for one user, and where the user's
    identity and token come from: the [userId] member of the first answer
    and the [token] member of the second. *)
Definition user_harvest_calls (cfg : config) (user : provisioned_user)
    (calls : list (request * response)) : Prop :=
  ∃ r1 r2 obj1 obj2,
    calls = [(identity_request cfg (login_of user), r1);
             (token_request cfg (login_of user), r2)]
    ∧ json_body r1 = Some (JsonObject obj1) ∧ obj1 !! "userId" = Some user.1.2
    ∧ json_body r2 = Some (JsonObject obj2) ∧ obj2 !! "token" = Some user.2.

(** How a stage of one checked call per item went: the answers it got, in
    order.  Either every item got an answer and none was an error status,
    or the last answer was one and was raised. *)
Definition checked_answers {A} (items : list A) (answers : list response)
    (o : outcome unit) : Prop :=
  match o with
  | Ok _ => length answers = length items
            ∧ Forall (λ r, ¬ rejected r) answers
  | Raise e =>
      (length answers ≤ length items)%nat
      ∧ ∃ before r, answers = before ++ [r]
                    ∧ Forall (λ r, ¬ rejected r) before
                    ∧ rejected r ∧ e = HTTPError r
  end.

(** The messages logged at ERROR level, and the bodies of the answers whose
    status is not accepted. *)
Definition is_error (entry : level * string) : bool :=
  match entry.1 with ERROR => true | INFO => false end.

Definition errors_of (entries : list (level * string)) : list string :=
  (filter (λ entry, is_error entry = true) entries).*2.

Definition refused_bodies (calls : list (request * response)) : list string :=
  (λ c, text c.2)
    <$> filter (λ c, status_code c.2 ∉ [200; 201; 202; 204]) calls.

(** A computation whose ERROR messages are the bodies of the answers it
    got with a status that is not accepted, one message per answer, in the
    order of the calls. *)
Definition logs_refusals {A} (m : M A) : Prop :=
  ∀ w, ∃ calls entries,
    trace (m w).2 = trace w ++ calls
    ∧ log (m w).2 = log w ++ entries
    ∧ errors_of entries = refused_bodies calls.

(** Why the harvester can raise, told from its last call: the answer had
    an error status; or its body was not JSON; or its body was JSON but no
    object; or the object lacked the member read from it, [userId] after
    the identity call and [token] after the token call. *)
Definition harvest_failure (c : request * response) (e : exn) : Prop :=
  (rejected c.2 ∧ e = HTTPError c.2)
  ∨ (¬ rejected c.2 ∧ json_body c.2 = None ∧ e = JSONDecodeError)
  ∨ (¬ rejected c.2 ∧ json_body c.2 = Some JsonOther ∧ e = TypeError)
  ∨ (¬ rejected c.2
     ∧ ∃ obj, json_body c.2 = Some (JsonObject obj)
              ∧ ((req_method c.1 = GET ∧ obj !! "userId" = None
                  ∧ e = KeyError "userId")
                 ∨ (req_method c.1 = POST ∧ obj !! "token" = None
                    ∧ e = KeyError "token"))).

(** Why the registrar can raise, told from its last call: the answer had an
    error status; or it answered a registration without a [Location]
    header; or with one that holds no slash. *)
Definition mapping_failure (c : request * response) (e : exn) : Prop :=
  (rejected c.2 ∧ e = HTTPError c.2)
  ∨ (¬ rejected c.2 ∧ req_method c.1 = POST
     ∧ headers c.2 !! "location" = None ∧ e = KeyError "location")
  ∨ (¬ rejected c.2 ∧ req_method c.1 = POST
     ∧ ∃ location, headers c.2 !! "location" = Some location
                   ∧ Py.contains "/" location = false
                   ∧ e = ValueError "not enough values to unpack (expected 2, got 1)").

(** An answer that carries all the pipeline reads. *)
Definition complete_answer (res : response) : Prop :=
  harvest_ok res ∧ mapping_ok res.

(** * Properties *)

(** ** Facts about the string built-ins *)

Section py_facts.

Import Py.

Lemma app_cons a (s t : string) : String a s +:+ t = String a (s +:+ t).
Proof. reflexivity. Qed.

Lemma app_nil_l_str (s : string) : "" +:+ s = s.
Proof. reflexivity. Qed.

Lemma len_app s t : len (s +:+ t) = (len s + len t)%nat.
Proof.
  unfold len. induction s as [|a s IH]; [done|].
  rewrite app_cons. simpl. by rewrite IH.
Qed.

Lemma app_assoc_str (s t u : string) : (s +:+ t) +:+ u = s +:+ t +:+ u.
Proof.
  induction s as [|a s IH]; [done|]. rewrite !app_cons. by rewrite IH.
Qed.

Lemma app_nil_r_str (s : string) : s +:+ "" = s.
Proof. induction s as [|a s IH]; [done|]. rewrite app_cons. by rewrite IH. Qed.

Lemma len_zeros n : len (zeros n) = n.
Proof. unfold len. induction n as [|n IH]; simpl; [done|]. by rewrite IH. Qed.

Lemma all_digits_zeros n : all_digits (zeros n) = true.
Proof. induction n; simpl; auto. Qed.

Lemma all_digits_app s t :
  all_digits (s +:+ t) = all_digits s && all_digits t.
Proof.
  induction s as [|a s IH]; [done|].
  rewrite app_cons. simpl. rewrite IH. by rewrite andb_assoc.
Qed.

Lemma is_digit_pretty_N_char x : is_digit (pretty_N_char x) = true.
Proof. unfold pretty_N_char. by repeat case_match. Qed.

Lemma digit_value_pretty_N_char (x : N) :
  (x < 10)%N → digit_value (pretty_N_char x) = Z.of_N x.
Proof.
  intros Hx.
  assert (x = 0 ∨ x = 1 ∨ x = 2 ∨ x = 3 ∨ x = 4 ∨ x = 5 ∨ x = 6 ∨ x = 7
          ∨ x = 8 ∨ x = 9)%N as Hc by lia.
  by repeat (destruct Hc as [->|Hc]); [..|subst x].
Qed.

Lemma is_digit_not_sign c : is_digit c = true → is_sign c = false.
Proof.
  unfold is_digit, is_sign. intros Hd.
  apply orb_false_intro; apply bool_decide_eq_false; intros ->; done.
Qed.

Lemma is_digit_not_char (c d : ascii) :
  is_digit d = false → is_digit c = true → c ≠ d.
Proof. intros Hd Hc ->. congruence. Qed.

(** The digits stdpp's printer produces. *)
Lemma all_digits_pretty_N_go x s :
  all_digits s = true → all_digits (pretty_N_go x s) = true.
Proof.
  revert s. induction (N.lt_wf_0 x) as [x _ IH]; intros s Hs.
  assert (x = 0 ∨ 0 < x)%N as [->|Hx] by lia.
  - by rewrite pretty_N_go_0.
  - rewrite pretty_N_go_step by done. apply IH.
    + by apply N.div_lt.
    + simpl. by rewrite is_digit_pretty_N_char.
Qed.

Lemma int_digits_pretty_N_go x s :
  int_digits 0 (pretty_N_go x s) = int_digits (Z.of_N x) s.
Proof.
  revert s. induction (N.lt_wf_0 x) as [x _ IH]; intros s.
  assert (x = 0 ∨ 0 < x)%N as [->|Hx] by lia.
  - by rewrite pretty_N_go_0.
  - rewrite pretty_N_go_step by done.
    rewrite IH by (by apply N.div_lt). simpl.
    rewrite digit_value_pretty_N_char by (apply N.mod_lt; lia).
    f_equal. rewrite N2Z.inj_div, N2Z.inj_mod. simpl Z.of_N.
    pose proof (Z.div_mod (Z.of_N x) 10). lia.
Qed.

Lemma all_digits_pretty_N (n : N) : all_digits (pretty n) = true.
Proof.
  unfold pretty, pretty_N. case_decide; [done|].
  by apply all_digits_pretty_N_go.
Qed.

Lemma int_digits_pretty_N (n : N) : int_digits 0 (pretty n) = Z.of_N n.
Proof.
  unfold pretty, pretty_N. case_decide as Hn; [by subst|].
  by rewrite int_digits_pretty_N_go.
Qed.

Lemma pretty_N_nonempty (n : N) : pretty n ≠ "".
Proof.
  intros Hn. pose proof (int_digits_pretty_N n) as Hv.
  rewrite Hn in Hv. simpl in Hv.
  assert (n = 0%N) as -> by lia. vm_compute in Hn. discriminate.
Qed.

Lemma str_nonneg (i : Z) : 0 ≤ i → str i = pretty (Z.to_N i).
Proof. intros Hi. destruct i as [|p|p]; [done..|lia]. Qed.

Lemma str_neg (i : Z) : i < 0 → str i = String "-" (pretty (Z.to_N (- i))).
Proof. intros Hi. destruct i as [|p|p]; [lia..|done]. Qed.

Lemma zfill_digits w s :
  all_digits s = true → zfill w s = zeros (w - len s) +:+ s.
Proof.
  intros Hs. unfold zfill. case_bool_decide as Hw.
  - by replace (w - len s)%nat with 0%nat by lia.
  - destruct s as [|c rest]; [by rewrite app_nil_r_str|].
    simpl in Hs. apply andb_prop in Hs as [Hc _].
    by rewrite (is_digit_not_sign _ Hc).
Qed.

Lemma zfill_minus w d :
  zfill w (String "-" d) = String "-" (zeros (w - S (len d)) +:+ d).
Proof.
  unfold zfill. change (len (String "-" d)) with (S (len d)).
  case_bool_decide as Hw; [|done].
  by replace (w - S (len d))%nat with 0%nat by lia.
Qed.

Lemma len_zfill w s : len (zfill w s) = (w `max` len s)%nat.
Proof.
  unfold zfill. case_bool_decide as Hw; [lia|].
  destruct s as [|c rest].
  - rewrite len_zeros. unfold len. simpl. lia.
  - destruct (is_sign c).
    + change (len (String c ?x)) with (S (len x)).
      rewrite len_app, len_zeros.
      change (len (String c rest)) with (S (len rest)) in *. lia.
    + rewrite len_app, len_zeros. lia.
Qed.

Lemma int_digits_zeros k s : int_digits 0 (zeros k +:+ s) = int_digits 0 s.
Proof. induction k as [|k IH]; [done|]. simpl zeros. by rewrite app_cons. Qed.

Lemma int_unsigned s : all_digits s = true → int s = int_digits 0 s.
Proof.
  destruct s as [|c rest]; [done|]. simpl. intros [Hc _]%andb_prop.
  destruct (decide (c = "-"%char)) as [->|Hne]; [done|].
  unfold int. by destruct c as [[] [] [] [] [] [] [] []].
Qed.

(** Zero-filling never loses the number: reading the padded text back as
    an integer gives the integer that was printed. *)
Lemma int_zfill_str w (i : Z) : int (zfill w (str i)) = i.
Proof.
  destruct (decide (0 ≤ i)) as [Hi|Hi].
  - rewrite str_nonneg by done.
    rewrite zfill_digits by apply all_digits_pretty_N.
    rewrite int_unsigned
      by (by rewrite all_digits_app, all_digits_zeros, all_digits_pretty_N).
    rewrite int_digits_zeros, int_digits_pretty_N. lia.
  - rewrite str_neg by lia. rewrite zfill_minus. unfold int.
    rewrite int_digits_zeros, int_digits_pretty_N. lia.
Qed.

(** For a number that is not negative the padded text is the decimal
    representation behind as many zeros as it is short of the width. *)
Lemma zfill_str_nonneg w (i : Z) :
  0 ≤ i → zfill w (str i) = zeros (w - len (str i)) +:+ str i.
Proof.
  intros Hi. apply zfill_digits. rewrite str_nonneg by done.
  apply all_digits_pretty_N.
Qed.

Lemma contains_app c s t : contains c (s +:+ t) = contains c s || contains c t.
Proof.
  induction s as [|a s IH]; [done|].
  rewrite app_cons. simpl. rewrite IH. by rewrite orb_assoc.
Qed.

Lemma contains_digits c s :
  is_digit c = false → all_digits s = true → contains c s = false.
Proof.
  intros Hc. induction s as [|a s IH]; [done|].
  simpl. intros [Ha Hs]%andb_prop. rewrite IH by done.
  rewrite orb_false_r. apply bool_decide_eq_false. intros ->. congruence.
Qed.

(** The decimal representation holds digits and at most a minus sign. *)
Lemma contains_str c (i : Z) :
  is_digit c = false → c ≠ "-"%char → contains c (str i) = false.
Proof.
  intros Hc Hm. destruct (decide (0 ≤ i)) as [Hi|Hi].
  - rewrite str_nonneg by done.
    apply contains_digits; [done|apply all_digits_pretty_N].
  - rewrite str_neg by lia. simpl.
    rewrite contains_digits by (done || apply all_digits_pretty_N).
    rewrite orb_false_r. by apply bool_decide_eq_false.
Qed.

End py_facts.

(** ** Login Generator *)

Example generateUserLogins_scenario :
  generateUserLogins 1001 1004 "XX"
  = [(1001, "XX01001"); (1002, "XX01002"); (1003, "XX01003")].
Proof. vm_compute. reflexivity. Qed.

Example zfill_negative : Py.zfill 5 (Py.str (-42)) = "-0042".
Proof. vm_compute. reflexivity. Qed.

Example zfill_wide : Py.zfill 5 (Py.str 1234567) = "1234567".
Proof. vm_compute. reflexivity. Qed.

Lemma length_generateUserLogins (L H : Z) (P : string) :
  length (generateUserLogins L H P) = Z.to_nat (H - L).
Proof.
  unfold generateUserLogins, Py.range. by rewrite length_fmap, length_seqZ.
Qed.

Lemma lookup_generateUserLogins (L H : Z) (P : string) (k : nat) :
  Z.of_nat k < H - L →
  generateUserLogins L H P !! k
  = Some (L + Z.of_nat k, P +:+ Py.zfill 5 (Py.str (L + Z.of_nat k))).
Proof.
  intros Hk. unfold generateUserLogins, Py.range.
  by rewrite list_lookup_fmap, lookup_seqZ_lt.
Qed.

Lemma lookup_generateUserLogins_Some (L H : Z) (P : string) (k : nat) r :
  generateUserLogins L H P !! k = Some r →
  r = (L + Z.of_nat k, P +:+ Py.zfill 5 (Py.str (L + Z.of_nat k)))
  ∧ Z.of_nat k < H - L.
Proof.
  unfold generateUserLogins, Py.range. rewrite list_lookup_fmap.
  intros (i & [-> Hk]%lookup_seqZ & ->)%fmap_Some. done.
Qed.

(** C1: for [L < H] the generator returns [H - L] pairs, the [k]-th being
    [(L + k, P + str(L + k).zfill(5))]; the ids increase strictly and no
    pair occurs twice; and the padded text of a number that is not negative
    is its decimal representation behind the zeros it lacks to width 5. *)
Theorem generateUserLogins_range (L H : Z) (P : string) :
  L < H →
  Z.of_nat (length (generateUserLogins L H P)) = H - L
  ∧ (∀ k : nat, Z.of_nat k < H - L →
       generateUserLogins L H P !! k
       = Some (L + Z.of_nat k, P +:+ Py.zfill 5 (Py.str (L + Z.of_nat k))))
  ∧ (∀ (j k : nat) a b, (j < k)%nat →
       generateUserLogins L H P !! j = Some a →
       generateUserLogins L H P !! k = Some b → a.1 < b.1)
  ∧ NoDup (generateUserLogins L H P)
  ∧ (∀ i : Z, 0 ≤ i →
       Py.zfill 5 (Py.str i)
       = Py.zeros (5 - Py.len (Py.str i)) +:+ Py.str i).
Proof.
  intros HLH. split_and!.
  - rewrite length_generateUserLogins. lia.
  - intros k Hk. by apply lookup_generateUserLogins.
  - intros j k a b Hjk [-> _]%lookup_generateUserLogins_Some
      [-> _]%lookup_generateUserLogins_Some. simpl. lia.
  - unfold generateUserLogins. apply NoDup_fmap_2; [|apply NoDup_seqZ].
    intros i j Hij. by inversion Hij.
  - intros i Hi. by apply zfill_str_nonneg.
Qed.

Lemma generateUserLogins_range_witness :
  Z.of_nat (length (generateUserLogins 1001 1004 "XX")) = 1004 - 1001
  ∧ generateUserLogins 1001 1004 "XX" !! 2%nat = Some (1003, "XX01003")
  ∧ NoDup (generateUserLogins 1001 1004 "XX").
Proof.
  destruct (generateUserLogins_range 1001 1004 "XX")
    as (Hlen & Hk & _ & Hnd & _); [lia|].
  split; [exact Hlen|]. split; [|exact Hnd].
  rewrite (Hk 2%nat) by lia. vm_compute. reflexivity.
Defined.

Lemma login_inj (P : string) (i j : Z) :
  P +:+ Py.zfill 5 (Py.str i) = P +:+ Py.zfill 5 (Py.str j) → i = j.
Proof.
  intros Heq%(inj (String.app P)).
  rewrite <-(int_zfill_str 5 i), <-(int_zfill_str 5 j). by rewrite Heq.
Qed.

(** C9: the login determines the uid, whatever the number of digits: equal
    logins under one prefix come from equal uids; padding to width 5 loses
    nothing, the padded text reads back as the uid; so the logins of a run
    are pairwise different. *)
Theorem logins_unique (L H : Z) (P : string) :
  (∀ i j : Z,
     P +:+ Py.zfill 5 (Py.str i) = P +:+ Py.zfill 5 (Py.str j) → i = j)
  ∧ (∀ i : Z, Py.int (Py.zfill 5 (Py.str i)) = i
              ∧ Py.len (Py.zfill 5 (Py.str i)) = (5 `max` Py.len (Py.str i))%nat)
  ∧ NoDup ((generateUserLogins L H P).*2).
Proof.
  split; [apply login_inj|]. split.
  - intros i. split; [apply int_zfill_str|apply len_zfill].
  - unfold generateUserLogins. rewrite <-list_fmap_compose.
    apply NoDup_fmap_2; [|apply NoDup_seqZ].
    intros i j Hij. by apply (login_inj P).
Qed.

Example logins_unique_wide :
  (generateUserLogins 99998 100002 "XX").*2
  = ["XX99998"; "XX99999"; "XX100000"; "XX100001"].
Proof. vm_compute. reflexivity. Qed.

(** For [L ≥ H] the range is empty and so is the generator's result. *)
Lemma generateUserLogins_empty (L H : Z) (P : string) :
  H ≤ L → generateUserLogins L H P = [].
Proof.
  intros HLH. unfold generateUserLogins, Py.range. by rewrite seqZ_nil by lia.
Qed.

(** ** Running the monad *)

Lemma run_bind {A B} (m : M A) (k : A → M B) (w : world) :
  (m ≫= k) w = match m w with
                | (Ok a, w') => k a w'
                | (Raise e, w') => (Raise e, w')
                end.
Proof. reflexivity. Qed.

Lemma run_for_nil {A} (body : A → M unit) (w : world) :
  for_ [] body w = (Ok tt, w).
Proof. reflexivity. Qed.

Lemma run_for_cons {A} (x : A) xs (body : A → M unit) (w : world) :
  for_ (x :: xs) body w = match body x w with
                          | (Ok _, w') => for_ xs body w'
                          | (Raise e, w') => (Raise e, w')
                          end.
Proof. reflexivity. Qed.

(** ** Record Writer *)

Lemma join_map_str (user : provisioned_user) :
  Py.join "," (map_str user) +:+ newline = account_line user.
Proof.
  destruct user as [[[uid login] user_id] user_token]. simpl.
  by rewrite !app_assoc_str.
Qed.

Lemma write_rows f (users : list provisioned_user) (w : world) (c : string) :
  files w !! f = Some c →
  for_ users (λ user, write f (Py.join "," (map_str user) +:+ newline)) w
  = (Ok tt, {| trace := trace w; log := log w;
               files := <[f := c +:+ accounts_text users]> (files w) |}).
Proof.
  revert w c. induction users as [|user users IH]; intros w c Hc.
  - rewrite run_for_nil. simpl. rewrite app_nil_r_str, insert_id by done.
    by destruct w.
  - rewrite run_for_cons. unfold write at 1.
    erewrite IH; simpl.
    2:{ rewrite lookup_alter_eq, Hc. reflexivity. }
    rewrite insert_alter_eq, join_map_str, app_assoc_str. done.
Qed.

Lemma run_writeUserAccounts prefix (users : list provisioned_user) (w : world) :
  writeUserAccounts prefix users w
  = (Ok tt, {| trace := trace w; log := log w;
               files := <[prefix +:+ "_accounts.csv" := accounts_text users]>
                          (files w) |}).
Proof.
  unfold writeUserAccounts. rewrite run_bind. unfold open_ at 1.
  erewrite write_rows by apply lookup_insert_eq. simpl.
  by rewrite insert_insert_eq.
Qed.

(** C5: whatever the file [<prefix>_accounts.csv] held before, after the
    writer it holds one line [uid,login,identity,token] per user, in order,
    each ended by a newline, with nothing before, between or after them; the
    writer raises nothing and touches no other file, call or log entry. *)
Theorem writeUserAccounts_content prefix (users : list provisioned_user)
    (w : world) :
  ∃ w', writeUserAccounts prefix users w = (Ok tt, w')
        ∧ files w' !! (prefix +:+ "_accounts.csv") = Some (accounts_text users)
        ∧ (∀ other, other ≠ prefix +:+ "_accounts.csv" →
             files w' !! other = files w !! other)
        ∧ trace w' = trace w ∧ log w' = log w.
Proof.
  eexists. split; [apply run_writeUserAccounts|]. simpl.
  split; [apply lookup_insert_eq|]. split; [|done].
  intros other Hne. by rewrite lookup_insert_ne.
Qed.

Example accounts_text_example :
  accounts_text [(1001, "XX01001", "id3", "tok4"); (1002, "XX01002", "id5", "tok6")]
  = "1001,XX01001,id3,tok4" +:+ newline +:+ "1002,XX01002,id5,tok6" +:+ newline.
Proof. vm_compute. reflexivity. Qed.

Example writeUserAccounts_truncates :
  files (writeUserAccounts "XX" [(1001, "XX01001", "id3", "tok4")]
           (World [] [] (<["XX_accounts.csv" := "stale row"]> ∅))).2
    !! "XX_accounts.csv"
  = Some ("1001,XX01001,id3,tok4" +:+ newline).
Proof. vm_compute. reflexivity. Qed.

(** ** Reading the accounts file back *)

Lemma split_clean c s : Py.contains c s = false → Py.split c s = [s].
Proof.
  induction s as [|a s IH]; [done|]. simpl.
  intros [Ha Hs]%orb_false_elim. rewrite Ha, IH by done. done.
Qed.

Lemma split_app c s t :
  Py.contains c s = false →
  Py.split c (s +:+ String c t) = s :: Py.split c t.
Proof.
  induction s as [|a s IH]; intros Hs.
  - rewrite app_nil_l_str. simpl. by case_bool_decide.
  - simpl in Hs. apply orb_false_elim in Hs as [Ha Hs].
    rewrite app_cons. simpl. rewrite Ha, IH by done. done.
Qed.

Lemma split_join c (fields : list string) :
  fields ≠ [] →
  Forall (λ s, Py.contains c s = false) fields →
  Py.split c (Py.join (String c "") fields) = fields.
Proof.
  intros Hne Hclean. induction Hclean as [|x rest Hx Hrest IH]; [done|].
  destruct rest as [|y rest]; simpl.
  - by apply split_clean.
  - rewrite app_cons, app_nil_l_str, split_app by done.
    f_equal. by apply IH.
Qed.

Lemma read_lines_line l rest :
  Py.contains "010" l = false →
  read_lines (l +:+ newline +:+ rest) = l :: read_lines rest.
Proof.
  induction l as [|a l IH]; intros Hl.
  - rewrite app_nil_l_str. unfold newline. by rewrite app_cons, app_nil_l_str.
  - simpl in Hl. apply orb_false_elim in Hl as [Ha Hl].
    rewrite app_cons. simpl. rewrite Ha, IH by done. done.
Qed.

Lemma is_digit_comma : Py.is_digit "," = false.
Proof. reflexivity. Qed.

Lemma is_digit_newline : Py.is_digit "010" = false.
Proof. reflexivity. Qed.

Lemma contains_row c (user : provisioned_user) :
  Py.is_digit c = false → c ≠ "-"%char → c ≠ ","%char →
  Py.contains c user.1.1.2 = false → Py.contains c user.1.2 = false →
  Py.contains c user.2 = false →
  Py.contains c (Py.join "," (map_str user)) = false.
Proof.
  destruct user as [[[uid login] user_id] user_token]. simpl.
  intros Hd Hm Hc Hl Hi Ht.
  rewrite !contains_app, contains_str, Hl, Hi, Ht by done. simpl.
  by case_bool_decide.
Qed.

Lemma split_row (user : provisioned_user) :
  clean_user user → Py.split "," (Py.join "," (map_str user)) = map_str user.
Proof.
  destruct user as [[[uid login] user_id] user_token].
  intros ([Hl _] & [Hi _] & [Ht _]). apply split_join; [done|].
  repeat constructor; try done. by apply contains_str.
Qed.

Lemma read_lines_accounts_text (users : list provisioned_user) :
  Forall clean_user users →
  read_lines (accounts_text users)
  = (λ user, Py.join "," (map_str user)) <$> users.
Proof.
  induction 1 as [|user users Hu Hus IH]; [done|]. simpl.
  rewrite <-join_map_str, app_assoc_str, read_lines_line, IH; [done|].
  destruct Hu as ([_ Hl] & [_ Hi] & [_ Ht]). by apply contains_row.
Qed.

(** C4: when no login, identity or token holds a comma or a newline, the
    file the writer leaves has as many lines as there were users, and the
    [k]-th line splits at its commas into exactly the four fields
    [str(uid)], login, identity and token of the [k]-th user. *)
Theorem accounts_roundtrip prefix (users : list provisioned_user) (w : world) :
  Forall clean_user users →
  ∃ content,
    files (writeUserAccounts prefix users w).2 !! (prefix +:+ "_accounts.csv")
    = Some content
    ∧ length (read_lines content) = length users
    ∧ Forall2 (λ line '(uid, login, user_id, user_token),
                 Py.split "," line = [Py.str uid; login; user_id; user_token])
        (read_lines content) users.
Proof.
  intros Hclean. exists (accounts_text users).
  rewrite run_writeUserAccounts. simpl. split; [apply lookup_insert_eq|].
  rewrite read_lines_accounts_text by done. split; [by rewrite length_fmap|].
  induction Hclean as [|user users Hu Hus IH]; [constructor|].
  rewrite fmap_cons. constructor; [|exact IH].
  rewrite split_row by done. by destruct user as [[[uid login] user_id] user_token].
Qed.

Lemma accounts_roundtrip_witness :
  ∃ content,
    files (writeUserAccounts "XX"
             [(1001, "XX01001", "id3", "tok4"); (-7, "", "a b", "t-1")]
             world0).2 !! "XX_accounts.csv" = Some content
    ∧ read_lines content = ["1001,XX01001,id3,tok4"; "-7,,a b,t-1"]
    ∧ Py.split "," <$> read_lines content
      = [["1001"; "XX01001"; "id3"; "tok4"]; ["-7"; ""; "a b"; "t-1"]].
Proof.
  destruct (accounts_roundtrip "XX"
              [(1001, "XX01001", "id3", "tok4"); (-7, "", "a b", "t-1")] world0)
    as (content & Hfile & _ & _).
  - repeat constructor.
  - exists content. split; [exact Hfile|].
    vm_compute in Hfile. injection Hfile as <-. vm_compute. done.
Defined.

(** ** Response validator *)

Lemma accepted_not_rejected res : accepted res → ¬ rejected res.
Proof.
  unfold accepted, rejected. intros Hin Hr.
  repeat (apply elem_of_cons in Hin as [Heq|Hin]; [lia|]).
  by apply elem_of_nil in Hin.
Qed.

(** What [checkResponse] does, case by case. *)
Lemma run_checkResponse res w :
  checkResponse res w
  = if bool_decide (accepted res) then (Ok tt, w)
    else if bool_decide (rejected res)
         then (Raise (HTTPError res), log_error (text res) w)
         else (Ok tt, log_error (text res) w).
Proof.
  unfold checkResponse, accepted, rejected.
  destruct (decide (status_code res ∈ [200; 201; 202; 204])) as [Hin|Hout].
  - rewrite (bool_decide_eq_false_2 (_ ∉ _)) by (by intros ?).
    by rewrite bool_decide_eq_true_2.
  - rewrite (bool_decide_eq_true_2 (_ ∉ _)), (bool_decide_eq_false_2 (_ ∈ _))
      by done.
    rewrite run_bind. unfold LOG_error at 1, raise_for_status.
    by case_bool_decide.
Qed.

Lemma checkResponse_raises res w :
  (∃ e w', checkResponse res w = (Raise e, w')) ↔ rejected res.
Proof.
  rewrite run_checkResponse. split.
  - intros (e & w' & Hrun). repeat case_bool_decide; by simplify_eq.
  - intros Hr. rewrite bool_decide_eq_false_2
      by (intros Ha; by apply accepted_not_rejected in Ha).
    rewrite bool_decide_eq_true_2 by done. eauto.
Qed.

Lemma checkResponse_Ok res w u w' :
  checkResponse res w = (Ok u, w') →
  ¬ rejected res ∧ trace w' = trace w ∧ files w' = files w.
Proof.
  rewrite run_checkResponse. intros Hrun.
  repeat case_bool_decide; simplify_eq; split_and!; try done.
  by apply accepted_not_rejected.
Qed.

Lemma checkResponse_Raise res w e w' :
  checkResponse res w = (Raise e, w') →
  e = HTTPError res ∧ rejected res ∧ trace w' = trace w ∧ files w' = files w.
Proof.
  rewrite run_checkResponse. intros Hrun.
  repeat case_bool_decide; by simplify_eq.
Qed.

Lemma checkResponse_accepted res w :
  accepted res → checkResponse res w = (Ok tt, w).
Proof. intros Ha. rewrite run_checkResponse. by rewrite bool_decide_eq_true_2. Qed.

(** C2: a status outside the accepted set need not raise.  On 203 the
    validator logs the body as an error and returns normally; only the
    codes 400..599 raise. *)
Theorem checkResponse_203_returns :
  ¬ accepted (Response 203 "body" None ∅)
  ∧ checkResponse (Response 203 "body" None ∅) world0
    = (Ok tt, World [] [(ERROR, "body")] ∅)
  ∧ checkResponse (Response 500 "body" None ∅) world0
    = (Raise (HTTPError (Response 500 "body" None ∅)),
       World [] [(ERROR, "body")] ∅)
  ∧ checkResponse (Response 204 "body" None ∅) world0 = (Ok tt, world0).
Proof.
  split; [|by vm_compute].
  unfold accepted. simpl. intros Hin.
  repeat (apply elem_of_cons in Hin as [Heq|Hin]; [lia|]).
  by apply elem_of_nil in Hin.
Qed.

(** ** Extraction of the mapping-service id *)

Lemma rsplit1_absent c s : Py.contains c s = false → Py.rsplit1 c s = [s].
Proof.
  induction s as [|a s IH]; [done|]. simpl.
  intros [Ha Hs]%orb_false_elim. by rewrite IH, Ha.
Qed.

Lemma rsplit1_present c s :
  Py.contains c s = true →
  ∃ before after,
    Py.rsplit1 c s = [before; after]
    ∧ s = before +:+ String c after
    ∧ Py.contains c after = false.
Proof.
  induction s as [|a s IH]; [done|]. simpl. intros Hs.
  destruct (Py.contains c s) eqn:Hrest.
  - destruct IH as (before & after & -> & -> & Hafter); [done|].
    exists (String a before), after. by rewrite app_cons.
  - rewrite orb_false_r in Hs. apply bool_decide_eq_true in Hs as ->.
    rewrite rsplit1_absent by done. rewrite bool_decide_eq_true_2 by done.
    exists "", s. by rewrite app_nil_l_str.
Qed.

Lemma extract_luma_id_absent (location : string) (w : world) :
  Py.contains "/" location = false →
  extract_luma_id location w
  = (Raise (ValueError "not enough values to unpack (expected 2, got 1)"), w).
Proof. intros Hno. unfold extract_luma_id. by rewrite rsplit1_absent. Qed.

Lemma extract_luma_id_present (location : string) (w : world) :
  Py.contains "/" location = true →
  ∃ before luma_id,
    location = before +:+ "/" +:+ luma_id
    ∧ Py.contains "/" luma_id = false
    ∧ extract_luma_id location w = (Ok luma_id, w).
Proof.
  intros (before & after & Hsplit & -> & Hafter)%rsplit1_present.
  exists before, after. unfold extract_luma_id. by rewrite Hsplit.
Qed.

Lemma extract_luma_id_Ok (location : string) (w : world) luma_id w' :
  extract_luma_id location w = (Ok luma_id, w') →
  w' = w ∧ ∃ before, location = before +:+ "/" +:+ luma_id
                     ∧ Py.contains "/" luma_id = false.
Proof.
  intros Hrun. destruct (Py.contains "/" location) eqn:Hc.
  - destruct (extract_luma_id_present location w Hc)
      as (before & id & Hloc & Hid & Hrun').
    rewrite Hrun' in Hrun. injection Hrun as <- <-. eauto.
  - rewrite extract_luma_id_absent in Hrun by done. discriminate.
Qed.

(** C10: the id is extracted exactly when the header holds a slash, and is
    then what follows the last slash; without a slash the unpacking raises
    [ValueError], which is not the [HTTPError] of the status check. *)
Theorem extract_luma_id_total (location : string) (w : world) :
  (Py.contains "/" location = true →
     ∃ before luma_id,
       location = before +:+ "/" +:+ luma_id
       ∧ Py.contains "/" luma_id = false
       ∧ extract_luma_id location w = (Ok luma_id, w))
  ∧ (Py.contains "/" location = false →
       extract_luma_id location w
       = (Raise (ValueError "not enough values to unpack (expected 2, got 1)"), w))
  ∧ ((∃ luma_id w', extract_luma_id location w = (Ok luma_id, w'))
     ↔ Py.contains "/" location = true).
Proof.
  split_and!; [apply extract_luma_id_present|apply extract_luma_id_absent|].
  split.
  - intros (luma_id & w' & Hrun).
    destruct (Py.contains "/" location) eqn:Hc; [done|].
    rewrite extract_luma_id_absent in Hrun by done. discriminate.
  - intros (before & luma_id & _ & _ & Hrun)%(extract_luma_id_present _ w).
    eauto.
Qed.

Lemma extract_luma_id_total_witness :
  extract_luma_id "http://192.168.1.200:8080/api/v3/luma/admin/users/17" world0
  = (Ok "17", world0)
  ∧ extract_luma_id "17" world0
    = (Raise (ValueError "not enough values to unpack (expected 2, got 1)"), world0).
Proof.
  destruct (extract_luma_id_total
              "http://192.168.1.200:8080/api/v3/luma/admin/users/17" world0)
    as (Hyes & _ & _).
  destruct (extract_luma_id_total "17" world0) as (_ & Hno & _).
  split; [|apply Hno; reflexivity].
  destruct Hyes as (before & luma_id & _ & _ & Hrun); [reflexivity|].
  vm_compute. reflexivity.
Defined.

Example registrar_bare_location :
  (addUserMappingsToLUMA default_config server_bare_location "DESY"
     [(1001, "XX01001", "id", "tok")] "space" 2000 world0).1
  = Raise (ValueError "not enough values to unpack (expected 2, got 1)").
Proof. vm_compute. reflexivity. Qed.

(** ** Credential Harvester *)

(** One step of symbolic execution: split on the outcome of the first
    computation of a sequence that is known to end well. *)
Ltac run_step H :=
  rewrite run_bind in H;
  match type of H with
  | context [match ?m with _ => _ end] =>
      destruct m as [[?|?] ?] eqn:?; [|discriminate H]
  end.

Section harvester.

Variable cfg : config.
Variable srv : server.

Lemma harvest_loop_cons (user : login_record) rest result :
  getUserIdsAndTokens_loop cfg srv (user :: rest) result
  = (r ← requests_get srv (ONEZONE cfg +:+ "/user")
           (HTTPBasicAuth user.2 (PASSWORD cfg)) false;
     checkResponse r;;
     user_id ← json_get r "userId";
     LOG_info ("Generating user " +:+ user.2 +:+ " access token");;
     r ← requests_post srv (ONEZONE cfg +:+ "/user/client_tokens") (JObj [])
           (HTTPBasicAuth user.2 (PASSWORD cfg)) false;
     checkResponse r;;
     user_token ← json_get r "token";
     getUserIdsAndTokens_loop cfg srv rest
       (result ++ [(user.1, user.2, user_id, user_token)])).
Proof. reflexivity. Qed.

Lemma harvest_loop_Ok logins result w res w' :
  getUserIdsAndTokens_loop cfg srv logins result w = (Ok res, w') →
  ∃ new, res = result ++ new ∧ login_of <$> new = logins.
Proof.
  revert result w. induction logins as [|user rest IH]; intros result w Hrun.
  - injection Hrun as <- <-. exists []. by rewrite app_nil_r.
  - rewrite harvest_loop_cons in Hrun. do 7 run_step Hrun.
    apply IH in Hrun as (new & -> & <-).
    eexists (_ :: new). split; [by rewrite <-app_assoc|].
    by destruct user.
Qed.

Lemma json_get_Some (r : response) obj key v w :
  json_body r = Some (JsonObject obj) → obj !! key = Some v →
  json_get r key w = (Ok v, w).
Proof. intros Hobj Hv. unfold json_get. by rewrite Hobj, Hv. Qed.

Lemma harvest_loop_total logins result w :
  (∀ tr req, harvest_ok (srv tr req)) →
  ∃ res w', getUserIdsAndTokens_loop cfg srv logins result w = (Ok res, w').
Proof.
  intros Hsrv. revert result w.
  induction logins as [|user rest IH]; intros result w; [by eexists _, _|].
  rewrite harvest_loop_cons.
  rewrite run_bind. unfold requests_get, send at 1. cbv zeta.
  set (r1 := srv _ _). set (w1 := World _ _ _).
  destruct (Hsrv (trace w) (Request GET (ONEZONE cfg +:+ "/user") None
              (HTTPBasicAuth user.2 (PASSWORD cfg)) false))
    as (Hr1 & obj1 & Hobj1 & [uid Huid] & _). fold r1 in Hr1, Hobj1.
  rewrite run_bind.
  rewrite (checkResponse_accepted r1 w1 Hr1).
  rewrite run_bind, (json_get_Some _ _ _ _ _ Hobj1 Huid).
  rewrite run_bind. unfold LOG_info at 1.
  set (w3 := World _ _ _).
  rewrite run_bind. unfold requests_post, send at 1. cbv zeta.
  set (r2 := srv _ _). set (w4 := World _ _ _).
  destruct (Hsrv (trace w3) (Request POST (ONEZONE cfg +:+ "/user/client_tokens")
              (Some (JObj [])) (HTTPBasicAuth user.2 (PASSWORD cfg)) false))
    as (Hr2 & obj2 & Hobj2 & _ & [tok Htok]). fold r2 in Hr2, Hobj2.
  rewrite run_bind.
  rewrite (checkResponse_accepted r2 w4 Hr2).
  rewrite run_bind, (json_get_Some _ _ _ _ _ Hobj2 Htok).
  apply IH.
Qed.

End harvester.

Lemma mock_server_harvest_ok tr req : harvest_ok (mock_server tr req).
Proof.
  split; [unfold accepted; simpl; set_solver|].
  eexists. split; [reflexivity|].
  split; eexists; [apply lookup_insert_eq|].
  rewrite lookup_insert_ne by done. apply lookup_insert_eq.
Qed.

Example getUserIdsAndTokens_mock :
  (getUserIdsAndTokens default_config mock_server
     [(1001, "XX01001"); (1002, "XX01002")] world0).1
  = Ok [(1001, "XX01001", "id0", "tok1"); (1002, "XX01002", "id2", "tok3")].
Proof. vm_compute. reflexivity. Qed.

(** ** Stopping at the first error status *)

(** Every stage before the writer stops at the first error status. *)

Section stops_at_error.

Variable cfg : config.
Variable srv : server.

Lemma calm_nil : calm [].
Proof. constructor. Qed.

Lemma calm_app a b : calm a → calm b → calm (a ++ b).
Proof. intros Ha Hb. by apply Forall_app. Qed.

Lemma stops_ret {A} (a : A) : stops_at_error (mret a).
Proof.
  intros w. exists []. simpl. rewrite app_nil_r. split_and!; [done..|].
  apply calm_nil.
Qed.

(** Computations that only look at their arguments. *)
Lemma stops_pure {A} (m : M A) : (∀ w, (m w).2 = w) → stops_at_error m.
Proof.
  intros Hm w. exists []. rewrite Hm, app_nil_r. split_and!; [done..|].
  destruct (m w).1; [|left]; apply calm_nil.
Qed.

Lemma stops_json_get r key : stops_at_error (json_get r key).
Proof.
  apply stops_pure. intros w. unfold json_get.
  destruct (json_body r) as [[obj|]|]; [|done..]. by destruct (obj !! key).
Qed.

Lemma stops_headers_get r name : stops_at_error (headers_get r name).
Proof.
  apply stops_pure. intros w. unfold headers_get.
  by destruct (headers r !! Py.lower name).
Qed.

Lemma stops_extract_luma_id location : stops_at_error (extract_luma_id location).
Proof.
  apply stops_pure. intros w. unfold extract_luma_id, unpack2.
  by destruct (Py.rsplit1 "/" location) as [|? [|? [|? ?]]].
Qed.

Lemma stops_LOG_info msg : stops_at_error (LOG_info msg).
Proof.
  intros w. exists []. simpl. rewrite app_nil_r. split_and!; [done..|].
  apply calm_nil.
Qed.

Lemma stops_bind {A B} (m : M A) (k : A → M B) :
  stops_at_error m → (∀ a, stops_at_error (k a)) → stops_at_error (m ≫= k).
Proof.
  intros Hm Hk w. destruct (Hm w) as (calls1 & Ht1 & Hf1 & Ho1).
  rewrite run_bind. destruct (m w) as [[a|e] w1]; simpl in *.
  - destruct (Hk a w1) as (calls2 & Ht2 & Hf2 & Ho2).
    exists (calls1 ++ calls2). rewrite Ht2, Ht1, Hf2, Hf1, app_assoc.
    split_and!; [done..|].
    destruct (k a w1).1 as [b|e].
    + by apply calm_app.
    + destruct Ho2 as [Hcalm|(before & c & -> & Hbefore & Hc & ->)].
      * left. by apply calm_app.
      * right. exists (calls1 ++ before), c. rewrite app_assoc.
        split_and!; try done. by apply calm_app.
  - by exists calls1.
Qed.

Lemma stops_for {A} (xs : list A) (body : A → M unit) :
  (∀ x, stops_at_error (body x)) → stops_at_error (for_ xs body).
Proof.
  intros Hbody. induction xs as [|x xs IH]; [apply stops_ret|].
  apply (stops_bind (body x) (λ _, for_ xs body)); auto.
Qed.

(** A request and the check of its answer. *)
Lemma stops_call {A} (req : request) (k : response → M A) :
  (∀ r, stops_at_error (k r)) →
  stops_at_error (r ← send srv req; checkResponse r;; k r).
Proof.
  intros Hk w.
  set (r := srv (trace w) req).
  set (w1 := World (trace w ++ [(req, r)]) (log w) (files w)).
  assert ((r ← send srv req; checkResponse r;; k r) w
          = match checkResponse r w1 with
            | (Ok _, w2) => k r w2
            | (Raise e, w2) => (Raise e, w2)
            end) as -> by reflexivity.
  rewrite run_checkResponse.
  assert (∀ w2, trace w2 = trace w1 → files w2 = files w → ¬ rejected r →
    ∃ calls, trace (k r w2).2 = trace w ++ calls
             ∧ files (k r w2).2 = files w
             ∧ match (k r w2).1 with
               | Ok _ => calm calls
               | Raise e =>
                   calm calls
                   ∨ ∃ before c, calls = before ++ [c] ∧ calm before
                                 ∧ rejected c.2 ∧ e = HTTPError c.2
               end) as Hgoes.
  { intros w2 Ht Hf Hr. destruct (Hk r w2) as (calls & Ht2 & Hf2 & Ho2).
    exists ((req, r) :: calls). rewrite Ht2, Hf2, Ht, Hf. simpl.
    rewrite <-app_assoc. split_and!; [done..|].
    destruct (k r w2).1 as [b|e].
    - by constructor.
    - destruct Ho2 as [Hcalm|(before & c & -> & Hbefore & Hc & ->)].
      + left. by constructor.
      + right. exists ((req, r) :: before), c. split_and!; try done.
        by constructor. }
  repeat case_bool_decide.
  - apply Hgoes; [done..|]. by apply accepted_not_rejected.
  - exists [(req, r)]. simpl. split_and!; [done..|].
    right. exists [], (req, r). split_and!; [done|apply calm_nil|done..].
  - by apply Hgoes.
Qed.

Lemma stops_call_last (req : request) :
  stops_at_error (r ← send srv req; checkResponse r).
Proof.
  intros w.
  set (r := srv (trace w) req).
  set (w1 := World (trace w ++ [(req, r)]) (log w) (files w)).
  assert ((r ← send srv req; checkResponse r) w = checkResponse r w1)
    as -> by reflexivity.
  rewrite run_checkResponse.
  exists [(req, r)]. repeat case_bool_decide; simpl; split_and!; try done.
  - repeat constructor. by apply accepted_not_rejected.
  - right. exists [], (req, r). split_and!; [done|apply calm_nil|done..].
  - by repeat constructor.
Qed.

Lemma stops_addUsersToOnezone users :
  stops_at_error (addUsersToOnezone cfg srv users).
Proof.
  apply stops_for. intros user.
  apply stops_bind; [apply stops_LOG_info|]. intros _. apply stops_call_last.
Qed.

Lemma stops_getUserIdsAndTokens_loop user_logins result :
  stops_at_error (getUserIdsAndTokens_loop cfg srv user_logins result).
Proof.
  revert result. induction user_logins as [|user rest IH]; intros result.
  - apply stops_ret.
  - rewrite harvest_loop_cons. apply stops_call. intros r1.
    apply stops_bind; [apply stops_json_get|]. intros user_id.
    apply stops_bind; [apply stops_LOG_info|]. intros _.
    apply stops_call. intros r2.
    apply stops_bind; [apply stops_json_get|]. intros user_token.
    apply IH.
Qed.

Lemma stops_addUsersToSpace space_id users :
  stops_at_error (addUsersToSpace cfg srv space_id users).
Proof.
  apply stops_for. intros [[[uid login] user_id] user_token].
  apply stops_bind; [apply stops_LOG_info|]. intros _. apply stops_call_last.
Qed.

Lemma stops_addUserMappingsToLUMA storage_name users space_id default_gid :
  stops_at_error
    (addUserMappingsToLUMA cfg srv storage_name users space_id default_gid).
Proof.
  apply stops_call. intros r0.
  apply stops_for. intros [[[uid login] user_id] user_token].
  apply stops_bind; [apply stops_LOG_info|]. intros _.
  apply stops_call. intros r1.
  apply stops_bind; [apply stops_headers_get|]. intros location.
  apply stops_bind; [apply stops_extract_luma_id|]. intros luma_id.
  apply stops_call_last.
Qed.

End stops_at_error.

(** ** Storage Mapping Registrar *)

Ltac run_step_as H a w E :=
  rewrite run_bind in H;
  match type of H with
  | context [match ?m with _ => _ end] =>
      destruct m as [[a|?] w] eqn:E; [|discriminate H]
  end.

Section registrar.

Variable cfg : config.
Variable srv : server.
Variable storage_name : string.

Local Abbreviation per_user :=
  (λ '(uid, login, user_id, user_token),
     LOG_info ("Adding user " +:+ login +:+ " credentials to LUMA");;
     r ← send srv (register_request cfg user_id);
     checkResponse r;;
     location ← headers_get r "Location";
     luma_id ← extract_luma_id location;
     r ← send srv (credentials_request cfg storage_name luma_id uid);
     checkResponse r).

Lemma headers_get_Ok (r : response) name v w w' :
  headers_get r name w = (Ok v, w') →
  w' = w ∧ headers r !! Py.lower name = Some v.
Proof.
  unfold headers_get. destruct (headers r !! Py.lower name); [|done].
  by injection 1 as <- <-.
Qed.

Lemma headers_get_Some (r : response) name v w :
  headers r !! Py.lower name = Some v → headers_get r name w = (Ok v, w).
Proof. intros Hv. unfold headers_get. by rewrite Hv. Qed.

Lemma per_user_Ok (user : provisioned_user) w u w' :
  per_user user w = (Ok u, w') →
  ∃ calls, trace w' = trace w ++ calls
           ∧ user_mapping_calls cfg storage_name user calls.
Proof.
  destruct user as [[[uid login] user_id] user_token]. intros Hrun.
  run_step_as Hrun u1 w1 E1. unfold LOG_info in E1. injection E1 as _ <-.
  run_step_as Hrun r1 w2 E2. unfold send in E2. injection E2 as <- <-.
  run_step_as Hrun u3 w3 E3. apply checkResponse_Ok in E3 as (_ & Ht3 & _).
  run_step_as Hrun location w4 E4. apply headers_get_Ok in E4 as [-> Hloc].
  run_step_as Hrun luma_id w5 E5.
  apply extract_luma_id_Ok in E5 as (-> & before & -> & Hid).
  run_step_as Hrun r2 w6 E6. unfold send in E6. injection E6 as <- <-.
  apply checkResponse_Ok in Hrun as (_ & Ht7 & _).
  eexists [_; _]. split.
  - rewrite Ht7. simpl. rewrite Ht3. simpl. by rewrite <-app_assoc.
  - eexists _, _, before, luma_id. split; [reflexivity|]. done.
Qed.

Lemma for_per_user_Ok (users : list provisioned_user) w u w' :
  for_ users per_user w = (Ok u, w') →
  ∃ calls, trace w' = trace w ++ concat calls
           ∧ Forall2 (user_mapping_calls cfg storage_name) users calls.
Proof.
  revert w. induction users as [|user users IH]; intros w Hrun.
  - rewrite run_for_nil in Hrun. injection Hrun as _ <-.
    exists []. split; [by rewrite app_nil_r|constructor].
  - rewrite run_for_cons in Hrun.
    match type of Hrun with
    | context [match ?m with _ => _ end] =>
        destruct m as [[u1|e] w1] eqn:E1; [|discriminate]
    end.
    apply per_user_Ok in E1 as (calls1 & Ht1 & Hcalls1).
    apply IH in Hrun as (calls & Ht & Hcalls).
    exists (calls1 :: calls). split; [|by constructor].
    rewrite Ht, Ht1. simpl. by rewrite <-app_assoc.
Qed.

Lemma per_user_total (user : provisioned_user) w :
  (∀ tr req, mapping_ok (srv tr req)) →
  ∃ w', per_user user w = (Ok tt, w').
Proof.
  intros Hsrv. destruct user as [[[uid login] user_id] user_token].
  rewrite run_bind. unfold LOG_info at 1. set (w1 := World _ _ _).
  rewrite run_bind. unfold send at 1. cbv zeta.
  set (r1 := srv _ _). set (w2 := World _ _ _).
  destruct (Hsrv (trace w1) (register_request cfg user_id))
    as (Hr1 & location & Hloc & Hslash). fold r1 in Hr1, Hloc.
  rewrite run_bind, (checkResponse_accepted r1 w2 Hr1).
  rewrite run_bind, (headers_get_Some r1 "Location" location) by done.
  rewrite run_bind.
  destruct (extract_luma_id_present location w2 Hslash)
    as (before & luma_id & _ & _ & ->).
  rewrite run_bind. unfold send at 1. cbv zeta.
  set (r2 := srv _ _). set (w3 := World _ _ _).
  destruct (Hsrv (trace w2) (credentials_request cfg storage_name luma_id uid))
    as (Hr2 & _). fold r2 in Hr2.
  rewrite (checkResponse_accepted r2 w3 Hr2). eauto.
Qed.

Lemma for_per_user_total (users : list provisioned_user) w :
  (∀ tr req, mapping_ok (srv tr req)) →
  ∃ w', for_ users per_user w = (Ok tt, w').
Proof.
  intros Hsrv. revert w. induction users as [|user users IH]; intros w.
  - by eexists.
  - rewrite run_for_cons. destruct (per_user_total user w Hsrv) as [w1 ->].
    apply IH.
Qed.

(** C8: a run of the registrar that ends well made the default-group call
    first and then, for each user in order, the registration (a POST of
    the user's identity as [id] to [/admin/users]) followed by the
    credentials call (a PUT to [/admin/users/<id>/credentials], the id
    being what ends the registration's [Location] header, for the named
    storage, with the user's uid as uid and as gid); the registrar ends
    well whenever every answer has an accepted status and a [Location]
    header with a slash; and however a run ends, its first call is the
    default-group call. *)
Theorem addUserMappingsToLUMA_calls (users : list provisioned_user)
    (space_id : string) (default_gid : Z) (w : world) :
  (∀ u w',
     addUserMappingsToLUMA cfg srv storage_name users space_id default_gid w
     = (Ok u, w') →
     ∃ r0 calls,
       trace w' = trace w
                  ++ (default_group_call cfg storage_name space_id default_gid,
                      r0) :: concat calls
       ∧ Forall2 (user_mapping_calls cfg storage_name) users calls)
  ∧ ((∀ tr req, mapping_ok (srv tr req)) →
     ∃ w',
       addUserMappingsToLUMA cfg srv storage_name users space_id default_gid w
       = (Ok tt, w'))
  ∧ (∃ r0 later,
       trace (addUserMappingsToLUMA cfg srv storage_name users space_id
                default_gid w).2
       = trace w
         ++ (default_group_call cfg storage_name space_id default_gid, r0)
            :: later).
Proof.
  split_and!.
  - intros u w' Hrun. unfold addUserMappingsToLUMA in Hrun.
    run_step_as Hrun r0 w1 E1. unfold send in E1. injection E1 as <- <-.
    run_step_as Hrun u2 w2 E2. apply checkResponse_Ok in E2 as (_ & Ht2 & _).
    apply for_per_user_Ok in Hrun as (calls & Ht & Hcalls).
    eexists _, calls. split; [|done].
    rewrite Ht, Ht2. simpl. by rewrite <-app_assoc.
  - intros Hsrv. unfold addUserMappingsToLUMA.
    rewrite run_bind. unfold send at 1. cbv zeta.
    set (r0 := srv _ _). set (w1 := World _ _ _).
    destruct (Hsrv (trace w)
                (default_group_request cfg storage_name space_id default_gid))
      as (Hr0 & _). fold r0 in Hr0.
    rewrite run_bind, (checkResponse_accepted r0 w1 Hr0).
    apply for_per_user_total, Hsrv.
  - set (req := default_group_request cfg storage_name space_id default_gid).
    set (r0 := srv (trace w) req).
    set (w1 := World (trace w ++ [(req, r0)]) (log w) (files w)).
    assert (addUserMappingsToLUMA cfg srv storage_name users space_id
              default_gid w
            = match checkResponse r0 w1 with
              | (Ok _, w2) => for_ users per_user w2
              | (Raise e, w2) => (Raise e, w2)
              end) as -> by reflexivity.
    exists r0. destruct (checkResponse r0 w1) as [[u|e] w2] eqn:Hcheck.
    + apply checkResponse_Ok in Hcheck as (_ & Ht2 & _).
      destruct (stops_for users per_user) with (w := w2)
        as (later & Ht & _).
      { intros [[[uid login] user_id] user_token].
        apply stops_bind; [apply stops_LOG_info|]. intros _.
        apply stops_call. intros r1.
        apply stops_bind; [apply stops_headers_get|]. intros location.
        apply stops_bind; [apply stops_extract_luma_id|]. intros luma_id.
        apply stops_call_last. }
      exists later. rewrite Ht, Ht2. simpl. by rewrite <-app_assoc.
    + apply checkResponse_Raise in Hcheck as (_ & _ & Ht2 & _).
      exists []. simpl. by rewrite Ht2.
Qed.

End registrar.

Lemma mock_server_mapping_ok tr req : mapping_ok (mock_server tr req).
Proof.
  split; [unfold accepted; simpl; set_solver|].
  eexists. split; [apply lookup_insert_eq|]. rewrite contains_app. reflexivity.
Qed.

Lemma addUserMappingsToLUMA_calls_witness :
  ∃ w', addUserMappingsToLUMA default_config mock_server "DESY"
          [(1001, "XX01001", "id3", "tok4")] "space" 2000 world0 = (Ok tt, w')
        ∧ length (trace w') = 3%nat.
Proof.
  destruct (addUserMappingsToLUMA_calls default_config mock_server "DESY"
              [(1001, "XX01001", "id3", "tok4")] "space" 2000 world0)
    as (Hcalls & Hruns & _).
  destruct (Hruns mock_server_mapping_ok) as [w' Hrun].
  exists w'. split; [exact Hrun|].
  vm_compute in Hrun. injection Hrun as <-. reflexivity.
Defined.

Example addUserMappingsToLUMA_mock :
  (λ c, (req_method c.1, req_url c.1, req_json c.1)) <$>
    trace (addUserMappingsToLUMA default_config mock_server "DESY"
             [(1001, "XX01001", "id3", "tok4")] "space" 2000 world0).2
  = [(PUT, "http://192.168.1.200:8080/api/v3/luma/admin/spaces/space/default_group",
      Some (JArr [[("gid", JInt 2000); ("storageName", JStr "DESY")]]));
     (POST, "http://192.168.1.200:8080/api/v3/luma/admin/users",
      Some (JObj [("id", JStr "id3")]));
     (PUT, "http://192.168.1.200:8080/api/v3/luma/admin/users/1/credentials",
      Some (JArr [[("storageName", JStr "DESY"); ("type", JStr "posix");
                   ("uid", JInt 1001); ("gid", JInt 1001)]]))].
Proof. vm_compute. reflexivity. Qed.

(** ** The pipeline on an empty range *)

Section empty_range.

Variable cfg : config.
Variable srv : server.

Local Abbreviation default_group :=
  (default_group_request cfg (STORAGE_NAME cfg) (SPACE_ID cfg)
     (DEFAULT_SPACE_GID cfg)).

Lemma run_main_empty (w : world) :
  HIGH_UID_RANGE cfg ≤ LOW_UID_RANGE cfg →
  main cfg srv w
  = match checkResponse (srv (trace w) default_group)
            {| trace := trace w ++ [(default_group, srv (trace w) default_group)];
               log := log w; files := files w |} with
    | (Ok _, w') => writeUserAccounts (USER_LOGIN_PREFIX cfg) [] w'
    | (Raise e, w') => (Raise e, w')
    end.
Proof.
  intros Hrange. unfold main. rewrite generateUserLogins_empty by done.
  cbv zeta.
  rewrite (run_bind (addUsersToOnezone cfg srv [])).
  change (addUsersToOnezone cfg srv [] w) with (Ok tt, w). cbv beta iota.
  rewrite (run_bind (getUserIdsAndTokens cfg srv [])).
  change (getUserIdsAndTokens cfg srv [] w) with (Ok (@nil provisioned_user), w).
  cbv beta iota.
  rewrite (run_bind (addUsersToSpace cfg srv (SPACE_ID cfg) [])).
  change (addUsersToSpace cfg srv (SPACE_ID cfg) [] w) with (Ok tt, w).
  cbv beta iota.
  rewrite (run_bind (addUserMappingsToLUMA _ _ _ _ _ _)).
  unfold addUserMappingsToLUMA.
  rewrite (run_bind (send _ _)). unfold send at 1. cbv zeta beta iota.
  rewrite (run_bind (checkResponse _)).
  by destruct (checkResponse _ _) as [[[]|e] w'].
Qed.

(** C7, as the code has it: for [L ≥ H] the generator returns the empty
    list and raises nothing; on the empty list the three per-user stages
    return at once, leaving the world as it was; a whole run makes exactly
    one remote call, the default-group call of the registrar; and when that
    call is answered with an accepted status the run ends well with the
    output file created and empty. *)
Theorem empty_range_run (w : world) :
  HIGH_UID_RANGE cfg ≤ LOW_UID_RANGE cfg →
  generateUserLogins (LOW_UID_RANGE cfg) (HIGH_UID_RANGE cfg)
    (USER_LOGIN_PREFIX cfg) = []
  ∧ addUsersToOnezone cfg srv [] w = (Ok tt, w)
  ∧ getUserIdsAndTokens cfg srv [] w = (Ok [], w)
  ∧ addUsersToSpace cfg srv (SPACE_ID cfg) [] w = (Ok tt, w)
  ∧ trace (main cfg srv w).2
    = trace w ++ [(default_group, srv (trace w) default_group)]
  ∧ (accepted (srv (trace w) default_group) →
     (main cfg srv w).1 = Ok tt
     ∧ files (main cfg srv w).2 !! (USER_LOGIN_PREFIX cfg +:+ "_accounts.csv")
       = Some ""
     ∧ read_lines "" = []).
Proof.
  intros Hrange. split; [by apply generateUserLogins_empty|].
  split_and!; [done..| |].
  - rewrite run_main_empty, run_checkResponse by done.
    repeat case_bool_decide; by rewrite ?run_writeUserAccounts.
  - intros Hr0. rewrite run_main_empty, checkResponse_accepted by done.
    rewrite run_writeUserAccounts. simpl. by rewrite lookup_insert_eq.
Qed.

End empty_range.

Lemma empty_range_run_witness :
  generateUserLogins 1001 1001 "XX" = []
  ∧ length (trace (main empty_range_config mock_server world0).2) = 1%nat
  ∧ (main empty_range_config mock_server world0).1 = Ok tt
  ∧ files (main empty_range_config mock_server world0).2 !! "XX_accounts.csv"
    = Some "".
Proof.
  destruct (empty_range_run empty_range_config mock_server world0)
    as (Hgen & _ & _ & _ & Htrace & Hfile); [simpl; lia|].
  destruct Hfile as (Hok & Hfile & _); [unfold accepted; simpl; set_solver|].
  split; [exact Hgen|]. split; [by rewrite Htrace|]. split; [exact Hok|].
  exact Hfile.
Defined.

(** C7, as it is worded: on an empty range the output file need not be
    created.  When the default-group call is answered with 500 the run
    raises before the writer, and there is no output file. *)
Lemma empty_range_file_not_created :
  generateUserLogins (LOW_UID_RANGE empty_range_config)
    (HIGH_UID_RANGE empty_range_config)
    (USER_LOGIN_PREFIX empty_range_config) = []
  ∧ (main empty_range_config (server_always 500) world0).1
    = Raise (HTTPError (Response 500 "refused" None ∅))
  ∧ length (trace (main empty_range_config (server_always 500) world0).2)
    = 1%nat
  ∧ files (main empty_range_config (server_always 500) world0).2
      !! "XX_accounts.csv" = None.
Proof. by vm_compute. Qed.

(** ** Fail-fast *)

(** C3: a call answered with a status that is not accepted need not stop
    the run.  When the enrollment of the second of three users is answered
    with 203, the run goes on through the remaining enrollment, all seven
    mapping calls and the writer; answered with 500 it stops there. *)
Theorem enrollment_203_continues :
  ¬ accepted (Response 203 "refused" None ∅)
  ∧ (req_method <$> (trace (main default_config (server_failing_at 10 203)
                             world0).2).*1) !! 10%nat = Some PUT
  ∧ (main default_config (server_failing_at 10 203) world0).1 = Ok tt
  ∧ length (trace (main default_config (server_failing_at 10 203) world0).2)
    = 19%nat
  ∧ files (main default_config (server_failing_at 10 203) world0).2
      !! "XX_accounts.csv"
    = Some (accounts_text [(1001, "XX01001", "id3", "tok4");
                           (1002, "XX01002", "id5", "tok6");
                           (1003, "XX01003", "id7", "tok8")])
  ∧ (main default_config (server_failing_at 10 500) world0).1
    = Raise (HTTPError (Response 500 "refused" None ∅))
  ∧ length (trace (main default_config (server_failing_at 10 500) world0).2)
    = 11%nat
  ∧ files (main default_config (server_failing_at 10 500) world0).2
      !! "XX_accounts.csv" = None.
Proof.
  split; [|by vm_compute].
  unfold accepted. simpl. intros Hin.
  repeat (apply elem_of_cons in Hin as [Heq|Hin]; [lia|]).
  by apply elem_of_nil in Hin.
Qed.


(** The whole run stops at the first error status, before anything is
    written. *)

Lemma before_writing_bind {A B} (m : M A) (k : A → M B) :
  stops_at_error m → (∀ a, stops_before_writing (k a)) →
  stops_before_writing (m ≫= k).
Proof.
  intros Hm Hk w. destruct (Hm w) as (calls1 & Ht1 & Hf1 & Ho1).
  rewrite run_bind. destruct (m w) as [[a|e] w1]; simpl in *.
  - destruct (Hk a w1) as (calls2 & Ht2 & Ho2).
    exists (calls1 ++ calls2). rewrite Ht2, Ht1, app_assoc. split; [done|].
    destruct (k a w1).1 as [b|e].
    + by apply calm_app.
    + destruct Ho2 as [Hf2 Ho2]. split; [congruence|].
      destruct Ho2 as [Hcalm|(before & c & -> & Hbefore & Hc & ->)].
      * left. by apply calm_app.
      * right. exists (calls1 ++ before), c. rewrite app_assoc.
        split_and!; try done. by apply calm_app.
  - by exists calls1.
Qed.

Lemma before_writing_writeUserAccounts prefix users :
  stops_before_writing (writeUserAccounts prefix users).
Proof.
  intros w. exists []. rewrite run_writeUserAccounts. simpl.
  rewrite app_nil_r. split; [done|apply calm_nil].
Qed.

Lemma main_stops_before_writing cfg srv : stops_before_writing (main cfg srv).
Proof.
  unfold main. cbv zeta.
  apply before_writing_bind; [apply stops_addUsersToOnezone|]. intros _.
  apply before_writing_bind; [apply stops_getUserIdsAndTokens_loop|].
  intros users.
  apply before_writing_bind; [apply stops_addUsersToSpace|]. intros _.
  apply before_writing_bind; [apply stops_addUserMappingsToLUMA|]. intros _.
  apply before_writing_writeUserAccounts.
Qed.

Lemma rejected_not_calm before c after :
  rejected c.2 → ¬ calm (before ++ c :: after).
Proof.
  intros Hc Hcalm. apply Forall_app in Hcalm as [_ Hcalm].
  by apply Forall_cons in Hcalm as [Hno _].
Qed.

Lemma rejected_is_last before c after before' c' :
  before ++ c :: after = before' ++ [c'] → rejected c.2 → calm before' →
  after = [] ∧ c = c'.
Proof.
  intros Heq Hc Hcalm. destruct after as [|x after _] using rev_ind.
  - by apply app_inj_tail in Heq as [_ ->].
  - rewrite app_comm_cons, app_assoc in Heq.
    apply app_inj_tail in Heq as [<- _].
    by apply rejected_not_calm in Hcalm.
Qed.

(** X7: Fail-fast, for the statuses that raise: a call of a run that is
    answered with a status in 400..599 is the last call of the run, the run
    raises that answer as [HTTPError], and no file is written. *)
Theorem error_status_ends_run cfg srv (w : world) before c after :
  trace (main cfg srv w).2 = trace w ++ before ++ c :: after →
  rejected c.2 →
  after = []
  ∧ (main cfg srv w).1 = Raise (HTTPError c.2)
  ∧ files (main cfg srv w).2 = files w.
Proof.
  intros Htrace Hc.
  destruct (main_stops_before_writing cfg srv w) as (calls & Ht & Ho).
  rewrite Ht in Htrace. apply app_inv_head in Htrace as ->.
  destruct (main cfg srv w).1 as [u|e].
  - by apply rejected_not_calm in Ho.
  - destruct Ho as [Hf [Hcalm|(before' & c' & Heq & Hbefore & _ & ->)]].
    + by apply rejected_not_calm in Hcalm.
    + destruct (rejected_is_last _ _ _ _ _ Heq Hc Hbefore) as [-> ->]. done.
Qed.

Lemma error_status_ends_run_witness :
  (main default_config (server_failing_at 10 500) world0).1
  = Raise (HTTPError (Response 500 "refused" None ∅))
  ∧ files (main default_config (server_failing_at 10 500) world0).2 = ∅.
Proof.
  pose (run := main default_config (server_failing_at 10 500) world0).
  destruct (error_status_ends_run default_config (server_failing_at 10 500)
              world0 (take 10 (trace run.2))
              (default (Request GET "" None NoAuth true, Response 500 "refused" None ∅)
                 (trace run.2 !! 10%nat))
              []) as (_ & Hraise & Hfiles).
  - vm_compute. reflexivity.
  - vm_compute. split; [discriminate|reflexivity].
  - split; [exact Hraise|exact Hfiles].
Defined.

(** * Further properties of the stages *)

(** ** Stages of one checked call per item *)

Lemma for_ext {A} (xs : list A) (body1 body2 : A → M unit) :
  (∀ x, body1 x = body2 x) → for_ xs body1 = for_ xs body2.
Proof.
  intros Hext. induction xs as [|x xs IH]; [done|]. simpl. by rewrite Hext, IH.
Qed.

Section checked_calls.

Variable srv : server.
Context {A : Type}.
Variable msg : A → string.
Variable req : A → request.

Local Abbreviation one_call :=
  (λ x, LOG_info (msg x);; r ← send srv (req x); checkResponse r).

Lemma run_one_call x w :
  one_call x w
  = checkResponse (srv (trace w) (req x))
      {| trace := trace w ++ [(req x, srv (trace w) (req x))];
         log := log w ++ [(INFO, msg x)]; files := files w |}.
Proof. reflexivity. Qed.

Lemma for_checked_calls (xs : list A) (w : world) :
  ∃ answers,
    trace (for_ xs one_call w).2 = trace w ++ zip (req <$> xs) answers
    ∧ files (for_ xs one_call w).2 = files w
    ∧ checked_answers xs answers (for_ xs one_call w).1.
Proof.
  revert w. induction xs as [|x xs IH]; intros w.
  - exists []. rewrite run_for_nil. simpl. by rewrite app_nil_r.
  - rewrite run_for_cons, run_one_call, run_checkResponse.
    set (r := srv (trace w) (req x)). set (w1 := World _ _ _).
    assert (∀ w2, trace w2 = trace w1 → files w2 = files w → ¬ rejected r →
      ∃ answers,
        trace (for_ xs one_call w2).2 = trace w ++ zip (req <$> x :: xs) answers
        ∧ files (for_ xs one_call w2).2 = files w
        ∧ checked_answers (x :: xs) answers (for_ xs one_call w2).1) as Hgoes.
    { intros w2 Ht Hf Hr. destruct (IH w2) as (answers & Ht2 & Hf2 & Ho2).
      exists (r :: answers). rewrite Ht2, Hf2, Ht, Hf. simpl.
      rewrite <-app_assoc. split_and!; [done..|].
      destruct (for_ xs one_call w2).1 as [u|e]; simpl in *.
      - destruct Ho2 as [Hlen Hall]. split; [by rewrite Hlen|by constructor].
      - destruct Ho2 as (Hlen & before & r' & -> & Hbefore & Hr' & ->).
        split; [lia|]. exists (r :: before), r'. split_and!; try done.
        by constructor. }
    repeat case_bool_decide.
    + apply Hgoes; [done..|]. by apply accepted_not_rejected.
    + exists [r]. simpl. rewrite zip_with_nil_r.
      split_and!; [done..|lia|]. exists [], r. by split_and!.
    + by apply Hgoes.
Qed.

Lemma for_checked_calls_accepted (xs : list A) (w : world) :
  (∀ tr rq, accepted (srv tr rq)) →
  ∃ w', for_ xs one_call w = (Ok tt, w')
        ∧ length (trace w') = (length (trace w) + length xs)%nat
        ∧ files w' = files w.
Proof.
  intros Hsrv. revert w. induction xs as [|x xs IH]; intros w.
  - exists w. rewrite run_for_nil. simpl. split_and!; [done|lia|done].
  - rewrite run_for_cons, run_one_call, checkResponse_accepted by apply Hsrv.
    set (w1 := World _ _ _). destruct (IH w1) as (w' & -> & Hlen & Hf).
    exists w'. split_and!; [done| |done].
    rewrite Hlen. unfold w1. simpl. rewrite length_app. simpl. lia.
Qed.

End checked_calls.

Lemma addUsersToOnezone_one_call cfg srv users :
  addUsersToOnezone cfg srv users
  = for_ users (λ user, LOG_info ("Adding user: " +:+ user.2);;
                        r ← send srv (provision_request cfg user);
                        checkResponse r).
Proof. reflexivity. Qed.

Lemma addUsersToSpace_one_call cfg srv space_id users :
  addUsersToSpace cfg srv space_id users
  = for_ users (λ user, LOG_info ("Adding user " +:+ user.1.1.2 +:+ " to space");;
                        r ← send srv (enroll_request cfg space_id user);
                        checkResponse r).
Proof.
  unfold addUsersToSpace. apply for_ext.
  by intros [[[uid login] user_id] user_token].
Qed.

(** X1: The Account Provisioner makes one account creation call per Login
    Record, in the order of the records and with the record's login as
    username, until an answer has an error status: then it raises that
    answer and creates no further account.  It writes no file. *)
Theorem addUsersToOnezone_calls cfg srv (users : list login_record) (w : world) :
  ∃ answers,
    trace (addUsersToOnezone cfg srv users w).2
    = trace w ++ zip (provision_request cfg <$> users) answers
    ∧ files (addUsersToOnezone cfg srv users w).2 = files w
    ∧ checked_answers users answers (addUsersToOnezone cfg srv users w).1.
Proof. rewrite addUsersToOnezone_one_call. apply for_checked_calls. Qed.

(** X2: Space Enrollment makes one call per Provisioned User, in order, to the
    space's member URL that ends in the user's identity, as the zone
    administrator, until an answer has an error status: then it raises that
    answer and enrolls no further user.  It writes no file. *)
Theorem addUsersToSpace_calls cfg srv space_id (users : list provisioned_user)
    (w : world) :
  ∃ answers,
    trace (addUsersToSpace cfg srv space_id users w).2
    = trace w ++ zip (enroll_request cfg space_id <$> users) answers
    ∧ files (addUsersToSpace cfg srv space_id users w).2 = files w
    ∧ checked_answers users answers (addUsersToSpace cfg srv space_id users w).1.
Proof. rewrite addUsersToSpace_one_call. apply for_checked_calls. Qed.

Example addUsersToOnezone_second_refused :
  (addUsersToOnezone default_config (server_failing_at 1 409)
     [(1001, "XX01001"); (1002, "XX01002"); (1003, "XX01003")] world0).1
  = Raise (HTTPError (Response 409 "refused" None ∅))
  ∧ (req_json <$> (trace (addUsersToOnezone default_config
                            (server_failing_at 1 409)
                            [(1001, "XX01001"); (1002, "XX01002");
                             (1003, "XX01003")] world0).2).*1)
    = [Some (JObj [("username", JStr "XX01001"); ("userRole", JStr "regular");
                   ("password", JStr "RANDOM")]);
       Some (JObj [("username", JStr "XX01002"); ("userRole", JStr "regular");
                   ("password", JStr "RANDOM")])].
Proof. by vm_compute. Qed.

(** ** Credential Harvester: the calls, the fields and the failures *)

(** Symbolic execution that keeps both outcomes of a step. *)
Ltac run_case H a e w E :=
  rewrite run_bind in H;
  match type of H with
  | context [match ?m with _ => _ end] => destruct m as [[a|e] w] eqn:E
  end.

Lemma json_get_Ok (r : response) key v w w' :
  json_get r key w = (Ok v, w') →
  w' = w ∧ ∃ obj, json_body r = Some (JsonObject obj) ∧ obj !! key = Some v.
Proof.
  unfold json_get. destruct (json_body r) as [[obj|]|]; [|done..].
  destruct (obj !! key) as [v'|] eqn:Hv; [|done].
  injection 1 as <- <-. eauto.
Qed.

Lemma json_get_Raise (r : response) key e w w' :
  json_get r key w = (Raise e, w') →
  w' = w ∧ ((json_body r = None ∧ e = JSONDecodeError)
            ∨ (json_body r = Some JsonOther ∧ e = TypeError)
            ∨ ∃ obj, json_body r = Some (JsonObject obj) ∧ obj !! key = None
                     ∧ e = KeyError key).
Proof.
  unfold json_get. destruct (json_body r) as [[obj|]|].
  - destruct (obj !! key) as [v'|] eqn:Hv; [done|].
    injection 1 as <- <-. split; [done|]. right. right. eauto.
  - injection 1 as <- <-. split; [done|]. right. by left.
  - injection 1 as <- <-. split; [done|]. by left.
Qed.

Section harvester_run.

Variable cfg : config.
Variable srv : server.

Lemma harvest_loop_run logins result w o w' :
  getUserIdsAndTokens_loop cfg srv logins result w = (o, w') →
  files w' = files w
  ∧ match o with
    | Ok res =>
        ∃ new calls, res = result ++ new
                     ∧ trace w' = trace w ++ concat calls
                     ∧ Forall2 (user_harvest_calls cfg) new calls
    | Raise e =>
        ∃ before c, trace w' = trace w ++ before ++ [c]
                    ∧ harvest_failure c e
    end.
Proof.
  revert result w. induction logins as [|user rest IH]; intros result w Hrun.
  { injection Hrun as <- <-. split; [done|]. exists [], [].
    rewrite !app_nil_r. split_and!; [done..|constructor]. }
  rewrite harvest_loop_cons in Hrun.
  run_case Hrun r1 e1 w1 E1;
    unfold requests_get, send in E1; [|discriminate E1].
  injection E1 as <- <-.
  set (r1 := srv (trace w) _) in *.
  run_case Hrun u2 e2 w2 E2.
  2:{ injection Hrun as <- <-.
      apply checkResponse_Raise in E2 as (-> & Hrej & Ht & Hf).
      split; [done|]. exists [], (identity_request cfg user, r1).
      split; [by rewrite Ht|by left]. }
  apply checkResponse_Ok in E2 as (Hr1 & Ht2 & Hf2). simpl in Ht2, Hf2.
  run_case Hrun user_id e3 w3 E3.
  2:{ injection Hrun as <- <-. apply json_get_Raise in E3 as (-> & Hfail).
      split; [done|]. exists [], (identity_request cfg user, r1).
      split; [by rewrite Ht2|]. right.
      destruct Hfail as [[Hnone ->]|[[Hother ->]|(obj & Hobj & Hkey & ->)]];
        [by left|right; by left|].
      right. right. split; [done|]. exists obj. split; [done|]. by left. }
  apply json_get_Ok in E3 as (-> & obj1 & Hobj1 & Hid).
  run_case Hrun u4 e4 w4 E4; unfold LOG_info in E4; [|discriminate E4].
  injection E4 as _ <-.
  run_case Hrun r2 e5 w5 E5;
    unfold requests_post, send in E5; [|discriminate E5].
  injection E5 as <- <-. simpl in Hrun.
  set (r2 := srv (trace w2) _) in *.
  run_case Hrun u6 e6 w6 E6.
  2:{ injection Hrun as <- <-.
      apply checkResponse_Raise in E6 as (-> & Hrej & Ht & Hf).
      simpl in Ht, Hf. split; [congruence|].
      exists [(identity_request cfg user, r1)], (token_request cfg user, r2).
      split; [|by left]. rewrite Ht, Ht2. by rewrite <-app_assoc. }
  apply checkResponse_Ok in E6 as (Hr2 & Ht6 & Hf6). simpl in Ht6, Hf6.
  run_case Hrun user_token e7 w7 E7.
  2:{ injection Hrun as <- <-. apply json_get_Raise in E7 as (-> & Hfail).
      split; [congruence|].
      exists [(identity_request cfg user, r1)], (token_request cfg user, r2).
      split; [rewrite Ht6, Ht2; by rewrite <-app_assoc|]. right.
      destruct Hfail as [[Hnone ->]|[[Hother ->]|(obj & Hobj & Hkey & ->)]];
        [by left|right; by left|].
      right. right. split; [done|]. exists obj. split; [done|]. by right. }
  apply json_get_Ok in E7 as (-> & obj2 & Hobj2 & Htok).
  apply IH in Hrun as [Hf Ho]. split; [congruence|].
  assert (trace w6 = trace w ++ [(identity_request cfg user, r1);
                                 (token_request cfg user, r2)]) as Ht.
  { rewrite Ht6, Ht2. by rewrite <-app_assoc. }
  destruct o as [res|e].
  - destruct Ho as (new & calls & -> & Htr & Hall).
    exists ((user.1, user.2, user_id, user_token) :: new),
      ([(identity_request cfg user, r1); (token_request cfg user, r2)] :: calls).
    split_and!.
    + by rewrite <-app_assoc.
    + rewrite Htr, Ht. simpl. by rewrite <-app_assoc.
    + constructor; [|done]. exists r1, r2, obj1, obj2.
      destruct user as [uid login]. by split_and!.
  - destruct Ho as (before & c & Htr & Hfail).
    exists ([(identity_request cfg user, r1); (token_request cfg user, r2)]
            ++ before), c.
    split; [|done]. rewrite Htr, Ht. by rewrite <-!app_assoc.
Qed.

End harvester_run.

(** C6: when the harvester returns, it returns one Provisioned User per
    Login Record, in the order of the records, each with the uid and the
    login of its record; what it adds comes from the service: for each user
    in order it made the identity call and then the token call as that
    user, the identity is the [userId] member of the first answer and the
    token the [token] member of the second; and it does return whenever
    the service answers every call with an accepted status and a body that
    has the identity and the token. *)
Theorem getUserIdsAndTokens_one_per_record (cfg : config) (srv : server)
    (user_logins : list login_record) (w : world) :
  (∀ res w', getUserIdsAndTokens cfg srv user_logins w = (Ok res, w') →
     length res = length user_logins
     ∧ login_of <$> res = user_logins
     ∧ ∃ calls, trace w' = trace w ++ concat calls
                ∧ Forall2 (user_harvest_calls cfg) res calls)
  ∧ ((∀ tr req, harvest_ok (srv tr req)) →
     ∃ res w', getUserIdsAndTokens cfg srv user_logins w = (Ok res, w')).
Proof.
  split.
  - intros res w' Hrun.
    pose proof (harvest_loop_Ok _ _ _ _ _ _ _ Hrun) as (new & Hnew & Hlogins).
    apply harvest_loop_run in Hrun as (_ & new' & calls & Hnew' & Ht & Hall).
    simpl in Hnew, Hnew'. subst new new'.
    split_and!; [by rewrite <-Hlogins, length_fmap|done|by exists calls].
  - intros Hsrv. by apply harvest_loop_total.
Qed.

Lemma getUserIdsAndTokens_one_per_record_witness :
  ∃ res w' calls,
    getUserIdsAndTokens default_config mock_server
      [(1001, "XX01001"); (1002, "XX01002")] world0 = (Ok res, w')
    ∧ login_of <$> res = [(1001, "XX01001"); (1002, "XX01002")]
    ∧ trace w' = concat calls
    ∧ Forall2 (user_harvest_calls default_config) res calls.
Proof.
  destruct (getUserIdsAndTokens_one_per_record default_config mock_server
              [(1001, "XX01001"); (1002, "XX01002")] world0) as [Hsame Hruns].
  destruct (Hruns mock_server_harvest_ok) as (res & w' & Hrun).
  destruct (Hsame res w' Hrun) as (_ & Hlogins & calls & Ht & Hall).
  exists res, w', calls. by split_and!.
Defined.

(** X3: A run of the harvester that ends well made, for each returned user in
    order, the identity call and then the token call, both authenticated
    as that user with the shared password; the user's identity is the
    [userId] member of the first answer and the token the [token] member of
    the second.  It writes no file. *)
Theorem getUserIdsAndTokens_fields cfg srv (user_logins : list login_record)
    (w : world) res w' :
  getUserIdsAndTokens cfg srv user_logins w = (Ok res, w') →
  ∃ calls, trace w' = trace w ++ concat calls
           ∧ Forall2 (user_harvest_calls cfg) res calls
           ∧ files w' = files w.
Proof.
  intros (Hf & new & calls & -> & Ht & Hall)%harvest_loop_run. eauto.
Qed.

Lemma getUserIdsAndTokens_fields_witness :
  ∃ res w' calls,
    getUserIdsAndTokens default_config mock_server
      [(1001, "XX01001"); (1002, "XX01002")] world0 = (Ok res, w')
    ∧ trace w' = concat calls
    ∧ Forall2 (user_harvest_calls default_config) res calls.
Proof.
  destruct (getUserIdsAndTokens default_config mock_server
              [(1001, "XX01001"); (1002, "XX01002")] world0)
    as [[res|e] w'] eqn:Hrun; [|by vm_compute in Hrun].
  destruct (getUserIdsAndTokens_fields _ _ _ _ _ _ Hrun)
    as (calls & Ht & Hall & _).
  exists res, w', calls. by split_and!.
Defined.



Example getUserIdsAndTokens_json_array :
  (getUserIdsAndTokens default_config
     (λ _ _, Response 200 "[]" (Some JsonOther) ∅)
     [(1001, "XX01001")] world0).1
  = Raise TypeError.
Proof. by vm_compute. Qed.

(** ** Storage Mapping Registrar: the failures *)

Lemma headers_get_Raise (r : response) name e w w' :
  headers_get r name w = (Raise e, w') →
  w' = w ∧ headers r !! Py.lower name = None ∧ e = KeyError (Py.lower name).
Proof.
  unfold headers_get. destruct (headers r !! Py.lower name); [done|].
  by injection 1 as <- <-.
Qed.

Lemma extract_luma_id_Raise (location : string) (w : world) e w' :
  extract_luma_id location w = (Raise e, w') →
  w' = w ∧ Py.contains "/" location = false
  ∧ e = ValueError "not enough values to unpack (expected 2, got 1)".
Proof.
  intros Hrun. destruct (Py.contains "/" location) eqn:Hc.
  - destruct (extract_luma_id_present location w Hc)
      as (before & id & _ & _ & Hrun').
    rewrite Hrun' in Hrun. discriminate.
  - rewrite extract_luma_id_absent in Hrun by done. by injection Hrun as <- <-.
Qed.

Section registrar_failures.

Variable cfg : config.
Variable srv : server.
Variable storage_name : string.

Local Abbreviation per_user :=
  (λ '(uid, login, user_id, user_token),
     LOG_info ("Adding user " +:+ login +:+ " credentials to LUMA");;
     r ← send srv (register_request cfg user_id);
     checkResponse r;;
     location ← headers_get r "Location";
     luma_id ← extract_luma_id location;
     r ← send srv (credentials_request cfg storage_name luma_id uid);
     checkResponse r).

Lemma stops_per_user (user : provisioned_user) : stops_at_error (per_user user).
Proof.
  destruct user as [[[uid login] user_id] user_token].
  apply stops_bind; [apply stops_LOG_info|]. intros _.
  apply stops_call. intros r1.
  apply stops_bind; [apply stops_headers_get|]. intros location.
  apply stops_bind; [apply stops_extract_luma_id|]. intros luma_id.
  apply stops_call_last.
Qed.

Lemma per_user_Raise (user : provisioned_user) w e w' :
  per_user user w = (Raise e, w') →
  ∃ before c, trace w' = trace w ++ before ++ [c] ∧ mapping_failure c e.
Proof.
  destruct user as [[[uid login] user_id] user_token]. intros Hrun.
  run_case Hrun u1 e1 w1 E1; unfold LOG_info in E1; [|discriminate E1].
  injection E1 as _ <-.
  run_case Hrun r1 e2 w2 E2; unfold send in E2; [|discriminate E2].
  injection E2 as <- <-. simpl in Hrun. set (r1 := srv (trace w) _) in *.
  run_case Hrun u3 e3 w3 E3.
  2:{ injection Hrun as <- <-.
      apply checkResponse_Raise in E3 as (-> & Hrej & Ht & _).
      exists [], (register_request cfg user_id, r1).
      split; [by rewrite Ht|by left]. }
  apply checkResponse_Ok in E3 as (Hr1 & Ht3 & _). simpl in Ht3.
  run_case Hrun location e4 w4 E4.
  2:{ injection Hrun as <- <-.
      apply headers_get_Raise in E4 as (-> & Hnone & ->).
      exists [], (register_request cfg user_id, r1).
      split; [by rewrite Ht3|]. right. left. by split_and!. }
  apply headers_get_Ok in E4 as [-> Hloc].
  run_case Hrun luma_id e5 w5 E5.
  2:{ injection Hrun as <- <-.
      apply extract_luma_id_Raise in E5 as (-> & Hslash & ->).
      exists [], (register_request cfg user_id, r1).
      split; [by rewrite Ht3|]. right. right. split_and!; [done..|].
      exists location. by split_and!. }
  apply extract_luma_id_Ok in E5 as (-> & _).
  run_case Hrun r2 e6 w6 E6; unfold send in E6; [|discriminate E6].
  injection E6 as <- <-. set (r2 := srv (trace w3) _) in *.
  apply checkResponse_Raise in Hrun as (-> & Hrej & Ht & _). simpl in Ht.
  exists [(register_request cfg user_id, r1)],
    (credentials_request cfg storage_name luma_id uid, r2).
  split; [|by left]. rewrite Ht, Ht3. by rewrite <-app_assoc.
Qed.

Lemma for_per_user_Raise (users : list provisioned_user) w e w' :
  for_ users per_user w = (Raise e, w') →
  ∃ before c, trace w' = trace w ++ before ++ [c] ∧ mapping_failure c e.
Proof.
  revert w. induction users as [|user users IH]; intros w Hrun; [done|].
  rewrite run_for_cons in Hrun.
  match type of Hrun with
  | context [match ?m with _ => _ end] =>
      destruct m as [[u1|e1] w1] eqn:E1
  end.
  - apply (per_user_Ok cfg srv storage_name user) in E1 as (calls1 & Ht1 & _).
    apply IH in Hrun as (before & c & Ht & Hfail).
    exists (calls1 ++ before), c. split; [|done].
    rewrite Ht, Ht1. by rewrite <-!app_assoc.
  - injection Hrun as <- <-. by apply (per_user_Raise user w).
Qed.

(** X5: When the registrar raises, its last call tells why: the answer had an
    error status (raised as [HTTPError]); or it answered a registration
    without a [Location] header ([KeyError]); or with a [Location] that
    holds no slash ([ValueError]).  No other exception leaves the
    registrar, and it writes no file. *)
Theorem addUserMappingsToLUMA_raises (users : list provisioned_user)
    (space_id : string) (default_gid : Z) (w : world) e w' :
  addUserMappingsToLUMA cfg srv storage_name users space_id default_gid w
  = (Raise e, w') →
  ∃ before c, trace w' = trace w ++ before ++ [c]
              ∧ mapping_failure c e
              ∧ files w' = files w.
Proof.
  intros Hrun.
  assert (files w' = files w) as Hfiles.
  { destruct (stops_addUserMappingsToLUMA cfg srv storage_name users space_id
                default_gid w) as (calls & _ & Hf & _).
    by rewrite Hrun in Hf. }
  unfold addUserMappingsToLUMA in Hrun.
  run_case Hrun r0 e1 w1 E1; unfold send in E1; [|discriminate E1].
  injection E1 as <- <-. set (r0 := srv (trace w) _) in *.
  run_case Hrun u2 e2 w2 E2.
  - apply checkResponse_Ok in E2 as (_ & Ht2 & _). simpl in Ht2.
    apply for_per_user_Raise in Hrun as (before & c & Ht & Hfail).
    exists ((default_group_request cfg storage_name space_id default_gid, r0)
            :: before), c.
    split_and!; [|done..]. rewrite Ht, Ht2. by rewrite <-app_assoc.
  - injection Hrun as <- <-.
    apply checkResponse_Raise in E2 as (-> & Hrej & Ht & _).
    exists [], (default_group_request cfg storage_name space_id default_gid, r0).
    split_and!; [by rewrite Ht|by left|done].
Qed.

End registrar_failures.

Lemma addUserMappingsToLUMA_raises_witness :
  (addUserMappingsToLUMA default_config (server_always 204) "DESY"
     [(1001, "XX01001", "id3", "tok4")] "space" 2000 world0).1
  = Raise (KeyError "location")
  ∧ ∃ before c,
      trace (addUserMappingsToLUMA default_config (server_always 204) "DESY"
               [(1001, "XX01001", "id3", "tok4")] "space" 2000 world0).2
      = before ++ [c]
      ∧ mapping_failure c (KeyError "location").
Proof.
  split; [by vm_compute|].
  destruct (addUserMappingsToLUMA default_config (server_always 204) "DESY"
              [(1001, "XX01001", "id3", "tok4")] "space" 2000 world0)
    as [[u|e] w'] eqn:Hrun; [by vm_compute in Hrun|].
  assert (e = KeyError "location") as -> by (vm_compute in Hrun; congruence).
  destruct (addUserMappingsToLUMA_raises _ _ _ _ _ _ _ _ _ Hrun)
    as (before & c & Ht & Hfail & _).
  exists before, c. by split.
Defined.

(** ** The whole run *)

Lemma addUsersToOnezone_Ok cfg srv (users : list login_record) w u w' :
  addUsersToOnezone cfg srv users w = (Ok u, w') →
  ∃ answers, trace w' = trace w ++ zip (provision_request cfg <$> users) answers
             ∧ length answers = length users
             ∧ files w' = files w.
Proof.
  intros Hrun.
  destruct (for_checked_calls srv (λ user : login_record, "Adding user: " +:+ user.2)
              (provision_request cfg) users w) as (answers & Ht & Hf & Ho).
  rewrite <-addUsersToOnezone_one_call, Hrun in Ht, Hf, Ho.
  destruct Ho as [Hlen _]. eauto.
Qed.

Lemma addUsersToSpace_Ok cfg srv space_id (users : list provisioned_user) w u w' :
  addUsersToSpace cfg srv space_id users w = (Ok u, w') →
  ∃ answers,
    trace w' = trace w ++ zip (enroll_request cfg space_id <$> users) answers
    ∧ length answers = length users
    ∧ files w' = files w.
Proof.
  intros Hrun.
  destruct (for_checked_calls srv
              (λ user : provisioned_user,
                 "Adding user " +:+ user.1.1.2 +:+ " to space")
              (enroll_request cfg space_id) users w)
    as (answers & Ht & Hf & Ho).
  rewrite <-addUsersToSpace_one_call, Hrun in Ht, Hf, Ho.
  destruct Ho as [Hlen _]. eauto.
Qed.

Lemma addUserMappingsToLUMA_Ok cfg srv storage_name
    (users : list provisioned_user) space_id default_gid w u w' :
  addUserMappingsToLUMA cfg srv storage_name users space_id default_gid w
  = (Ok u, w') →
  ∃ r0 calls,
    trace w' = trace w
               ++ (default_group_request cfg storage_name space_id default_gid,
                   r0) :: concat calls
    ∧ Forall2 (user_mapping_calls cfg storage_name) users calls
    ∧ files w' = files w.
Proof.
  intros Hrun.
  assert (files w' = files w) as Hfiles.
  { destruct (stops_addUserMappingsToLUMA cfg srv storage_name users space_id
                default_gid w) as (calls & _ & Hf & _).
    by rewrite Hrun in Hf. }
  unfold addUserMappingsToLUMA in Hrun.
  run_step_as Hrun r0 w1 E1. unfold send in E1. injection E1 as <- <-.
  run_step_as Hrun u2 w2 E2. apply checkResponse_Ok in E2 as (_ & Ht2 & _).
  apply for_per_user_Ok in Hrun as (calls & Ht & Hcalls).
  eexists _, calls. split_and!; [|done..].
  rewrite Ht, Ht2. simpl. by rewrite <-app_assoc.
Qed.

Lemma length_concat_pairs {A B} (R : A → list B → Prop) xs (calls : list (list B)) :
  (∀ x c, R x c → length c = 2%nat) →
  Forall2 R xs calls → length (concat calls) = (2 * length xs)%nat.
Proof.
  intros HR Hall. induction Hall as [|x c xs calls Hx _ IH]; [done|].
  simpl. rewrite length_app, IH, (HR x c Hx). lia.
Qed.

Lemma user_harvest_calls_length cfg user calls :
  user_harvest_calls cfg user calls → length calls = 2%nat.
Proof. by intros (? & ? & ? & ? & -> & _). Qed.

Lemma user_mapping_calls_length cfg storage_name user calls :
  user_mapping_calls cfg storage_name user calls → length calls = 2%nat.
Proof. by intros (? & ? & ? & ? & -> & _). Qed.

Section whole_run.

Variable cfg : config.
Variable srv : server.

Local Abbreviation logins :=
  (generateUserLogins (LOW_UID_RANGE cfg) (HIGH_UID_RANGE cfg)
     (USER_LOGIN_PREFIX cfg)).
Local Abbreviation accounts_file := (USER_LOGIN_PREFIX cfg +:+ "_accounts.csv").

Lemma main_Ok (w : world) u w' :
  main cfg srv w = (Ok u, w') →
  ∃ users a1 c2 a3 r0 c4,
    login_of <$> users = logins
    ∧ trace w'
      = trace w
        ++ zip (provision_request cfg <$> logins) a1
        ++ concat c2
        ++ zip (enroll_request cfg (SPACE_ID cfg) <$> users) a3
        ++ (default_group_request cfg (STORAGE_NAME cfg) (SPACE_ID cfg)
              (DEFAULT_SPACE_GID cfg), r0) :: concat c4
    ∧ length a1 = length users
    ∧ Forall2 (user_harvest_calls cfg) users c2
    ∧ length a3 = length users
    ∧ Forall2 (user_mapping_calls cfg (STORAGE_NAME cfg)) users c4
    ∧ files w' = <[accounts_file := accounts_text users]> (files w).
Proof.
  intros Hrun. unfold main in Hrun. cbv zeta in Hrun.
  run_step_as Hrun u1 w1 E1.
  apply addUsersToOnezone_Ok in E1 as (a1 & Ht1 & Hlen1 & Hf1).
  run_step_as Hrun users w2 E2.
  pose proof (harvest_loop_Ok _ _ _ _ _ _ _ E2) as (new & Hnew & Hlogins).
  apply harvest_loop_run in E2 as (Hf2 & new' & c2 & Hnew' & Ht2 & Hall2).
  simpl in Hnew, Hnew'. subst new new'.
  run_step_as Hrun u3 w3 E3.
  apply addUsersToSpace_Ok in E3 as (a3 & Ht3 & Hlen3 & Hf3).
  run_step_as Hrun u4 w4 E4.
  apply addUserMappingsToLUMA_Ok in E4 as (r0 & c4 & Ht4 & Hall4 & Hf4).
  rewrite run_writeUserAccounts in Hrun. injection Hrun as _ <-. simpl.
  exists users, a1, c2, a3, r0, c4. split_and!; try done.
  - rewrite Ht4, Ht3, Ht2, Ht1. by rewrite <-!app_assoc.
  - rewrite Hlen1, <-Hlogins. by rewrite length_fmap.
  - by rewrite Hf4, Hf3, Hf2, Hf1.
Qed.

End whole_run.

Lemma addUsersToOnezone_total cfg srv (users : list login_record) w :
  (∀ tr rq, accepted (srv tr rq)) →
  ∃ w', addUsersToOnezone cfg srv users w = (Ok tt, w').
Proof.
  intros Hsrv. rewrite addUsersToOnezone_one_call.
  destruct (for_checked_calls_accepted srv
              (λ user : login_record, "Adding user: " +:+ user.2)
              (provision_request cfg) users w Hsrv) as (w' & Hrun & _).
  by exists w'.
Qed.

Lemma addUsersToSpace_total cfg srv space_id (users : list provisioned_user) w :
  (∀ tr rq, accepted (srv tr rq)) →
  ∃ w', addUsersToSpace cfg srv space_id users w = (Ok tt, w').
Proof.
  intros Hsrv. rewrite addUsersToSpace_one_call.
  destruct (for_checked_calls_accepted srv
              (λ user : provisioned_user,
                 "Adding user " +:+ user.1.1.2 +:+ " to space")
              (enroll_request cfg space_id) users w Hsrv) as (w' & Hrun & _).
  by exists w'.
Qed.

Lemma addUserMappingsToLUMA_total cfg srv storage_name
    (users : list provisioned_user) space_id default_gid w :
  (∀ tr rq, mapping_ok (srv tr rq)) →
  ∃ w', addUserMappingsToLUMA cfg srv storage_name users space_id default_gid w
        = (Ok tt, w').
Proof.
  intros Hsrv. unfold addUserMappingsToLUMA.
  rewrite (run_bind (send _ _)). unfold send at 1. cbv zeta beta iota.
  rewrite (run_bind (checkResponse _)), checkResponse_accepted by apply Hsrv.
  apply for_per_user_total, Hsrv.
Qed.

Section whole_run_total.

Variable cfg : config.
Variable srv : server.

Local Abbreviation logins :=
  (generateUserLogins (LOW_UID_RANGE cfg) (HIGH_UID_RANGE cfg)
     (USER_LOGIN_PREFIX cfg)).
Local Abbreviation accounts_file := (USER_LOGIN_PREFIX cfg +:+ "_accounts.csv").

Lemma main_total (w : world) :
  (∀ tr rq, complete_answer (srv tr rq)) →
  ∃ w', main cfg srv w = (Ok tt, w').
Proof.
  intros Hsrv.
  assert (∀ tr rq, accepted (srv tr rq)) as Hacc by (intros; apply Hsrv).
  unfold main. cbv zeta.
  destruct (addUsersToOnezone_total cfg srv logins w Hacc) as [w1 E1].
  rewrite (run_bind (addUsersToOnezone _ _ _)), E1.
  destruct (harvest_loop_total cfg srv logins [] w1) as (users & w2 & E2);
    [intros; apply Hsrv|].
  rewrite (run_bind (getUserIdsAndTokens _ _ _)).
  unfold getUserIdsAndTokens. rewrite E2.
  destruct (addUsersToSpace_total cfg srv (SPACE_ID cfg) users w2 Hacc)
    as [w3 E3].
  rewrite (run_bind (addUsersToSpace _ _ _ _)), E3.
  destruct (addUserMappingsToLUMA_total cfg srv (STORAGE_NAME cfg) users
              (SPACE_ID cfg) (DEFAULT_SPACE_GID cfg) w3) as [w4 E4];
    [intros; apply Hsrv|].
  rewrite (run_bind (addUserMappingsToLUMA _ _ _ _ _ _)), E4.
  rewrite run_writeUserAccounts. eauto.
Qed.

(** X6: The run as a forward chain.  A run that ends well made, in this order:
    one account creation per login of the range; per user the identity
    call and the token call; one enrollment per user; the default-group
    call; per user the registration and the credentials call; and then it
    wrote the accounts file with one row per user, the users being the
    logins of the range in order.  Against a service whose every answer is
    accepted and carries the identity, the token and a [Location] with a
    slash, the run does end well, after [6 n + 1] calls for [n] logins. *)
Theorem main_forward_chain (w : world) :
  (∀ u w', main cfg srv w = (Ok u, w') →
     ∃ users a1 c2 a3 r0 c4,
       login_of <$> users = logins
       ∧ trace w'
         = trace w
           ++ zip (provision_request cfg <$> logins) a1
           ++ concat c2
           ++ zip (enroll_request cfg (SPACE_ID cfg) <$> users) a3
           ++ (default_group_request cfg (STORAGE_NAME cfg) (SPACE_ID cfg)
                 (DEFAULT_SPACE_GID cfg), r0) :: concat c4
       ∧ length a1 = length users
       ∧ Forall2 (user_harvest_calls cfg) users c2
       ∧ length a3 = length users
       ∧ Forall2 (user_mapping_calls cfg (STORAGE_NAME cfg)) users c4
       ∧ files w' = <[accounts_file := accounts_text users]> (files w))
  ∧ ((∀ tr rq, complete_answer (srv tr rq)) →
     ∃ w', main cfg srv w = (Ok tt, w')
           ∧ length (trace w') = (length (trace w) + 6 * length logins + 1)%nat).
Proof.
  split; [apply main_Ok|].
  intros Hsrv. destruct (main_total w Hsrv) as [w' Hrun].
  exists w'. split; [done|].
  destruct (main_Ok cfg srv w tt w' Hrun)
    as (users & a1 & c2 & a3 & r0 & c4 & Hlogins & Ht & H1 & H2 & H3 & H4 & _).
  assert (length logins = length users) as Hn
    by (by rewrite <-Hlogins, length_fmap).
  rewrite Ht, !length_app, !length_zip, !length_fmap. simpl.
  rewrite (length_concat_pairs _ _ _ (user_harvest_calls_length cfg) H2).
  rewrite (length_concat_pairs _ _ _
             (user_mapping_calls_length cfg (STORAGE_NAME cfg)) H4).
  lia.
Qed.

(** X8: The only file a run can change is the accounts file; a run changes
    a file only after it has made all its [6 n + 1] calls and none was
    answered with an error status; and none of the four remote stages
    changes a file, however it ends. *)
Theorem main_only_writes_accounts (w : world) :
  (∀ other, other ≠ accounts_file →
     files (main cfg srv w).2 !! other = files w !! other)
  ∧ (files (main cfg srv w).2 ≠ files w →
     ∃ calls, trace (main cfg srv w).2 = trace w ++ calls
              ∧ calm calls
              ∧ length calls = (6 * length logins + 1)%nat)
  ∧ (∀ users w0, files (addUsersToOnezone cfg srv users w0).2 = files w0)
  ∧ (∀ user_logins w0,
       files (getUserIdsAndTokens cfg srv user_logins w0).2 = files w0)
  ∧ (∀ space_id users w0,
       files (addUsersToSpace cfg srv space_id users w0).2 = files w0)
  ∧ (∀ storage_name users space_id default_gid w0,
       files (addUserMappingsToLUMA cfg srv storage_name users space_id
                default_gid w0).2 = files w0).
Proof.
  split_and!.
  - intros other Hne.
    destruct (main cfg srv w) as [[u|e] w'] eqn:Hrun; simpl.
    + destruct (main_Ok cfg srv w u w' Hrun)
        as (users & a1 & c2 & a3 & r0 & c4 & _ & _ & _ & _ & _ & _ & ->).
      by rewrite lookup_insert_ne.
    + destruct (main_stops_before_writing cfg srv w) as (calls & _ & Ho).
      rewrite Hrun in Ho. simpl in Ho. by destruct Ho as [-> _].
  - intros Hchanged.
    destruct (main_stops_before_writing cfg srv w) as (calls & Ht & Ho).
    destruct (main cfg srv w) as [[u|e] w'] eqn:Hrun; simpl in *.
    + exists calls. split_and!; [done..|].
      destruct (main_Ok cfg srv w u w' Hrun)
        as (users & a1 & c2 & a3 & r0 & c4 & Hlogins & Ht' & H1 & H2 & H3 & H4
            & _).
      rewrite Ht' in Ht. apply app_inv_head in Ht as <-.
      assert (length logins = length users) as Hn
        by (by rewrite <-Hlogins, length_fmap).
      rewrite !length_app, !length_zip, !length_fmap. simpl.
      rewrite (length_concat_pairs _ _ _ (user_harvest_calls_length cfg) H2).
      rewrite (length_concat_pairs _ _ _
                 (user_mapping_calls_length cfg (STORAGE_NAME cfg)) H4).
      lia.
    + by destruct Ho as [Hf _].
  - intros users w0.
    by destruct (stops_addUsersToOnezone cfg srv users w0) as (calls & _ & Hf & _).
  - intros user_logins w0.
    by destruct (stops_getUserIdsAndTokens_loop cfg srv user_logins [] w0)
      as (calls & _ & Hf & _).
  - intros space_id users w0.
    by destruct (stops_addUsersToSpace cfg srv space_id users w0)
      as (calls & _ & Hf & _).
  - intros storage_name users space_id default_gid w0.
    by destruct (stops_addUserMappingsToLUMA cfg srv storage_name users
                   space_id default_gid w0) as (calls & _ & Hf & _).
Qed.

End whole_run_total.

Lemma mock_server_complete tr rq : complete_answer (mock_server tr rq).
Proof. split; [apply mock_server_harvest_ok|apply mock_server_mapping_ok]. Qed.

Lemma main_forward_chain_witness :
  ∃ w', main default_config mock_server world0 = (Ok tt, w')
        ∧ length (trace w') = 19%nat
        ∧ files w' !! "XX_accounts.csv"
          = Some (accounts_text [(1001, "XX01001", "id3", "tok4");
                                 (1002, "XX01002", "id5", "tok6");
                                 (1003, "XX01003", "id7", "tok8")]).
Proof.
  destruct (main_forward_chain default_config mock_server world0)
    as [_ Hruns].
  destruct (Hruns mock_server_complete) as (w' & Hrun & Hlen).
  exists w'. split; [exact Hrun|]. split; [exact Hlen|].
  vm_compute in Hrun. injection Hrun as <-. reflexivity.
Defined.

(** ** Record Writer: a second run *)

(** X9: Writing a second list of users to the same file leaves exactly the rows
    of the second list: the rows of the first are gone, nothing is
    appended. *)
Theorem writeUserAccounts_overwrites prefix
    (users1 users2 : list provisioned_user) (w : world) :
  files (writeUserAccounts prefix users2
           (writeUserAccounts prefix users1 w).2).2
  = files (writeUserAccounts prefix users2 w).2
  ∧ files (writeUserAccounts prefix users2
             (writeUserAccounts prefix users1 w).2).2
      !! (prefix +:+ "_accounts.csv") = Some (accounts_text users2).
Proof.
  rewrite !run_writeUserAccounts. simpl.
  split; [apply insert_insert_eq|apply lookup_insert_eq].
Qed.

(** ** Login Generator: ranges, widths and signs *)

(** X10: Two adjoining ranges give, one after the other, the logins of the
    whole range. *)
Theorem generateUserLogins_app (L M H : Z) (P : string) :
  L ≤ M → M ≤ H →
  generateUserLogins L M P ++ generateUserLogins M H P
  = generateUserLogins L H P.
Proof.
  intros HLM HMH. unfold generateUserLogins, Py.range.
  rewrite <-fmap_app. f_equal.
  replace (H - L) with ((M - L) + (H - M)) by lia.
  rewrite seqZ_app by lia. do 2 f_equal. lia.
Qed.

Lemma generateUserLogins_app_witness :
  generateUserLogins 1001 1003 "XX" ++ generateUserLogins 1003 1004 "XX"
  = [(1001, "XX01001"); (1002, "XX01002"); (1003, "XX01003")].
Proof.
  rewrite (generateUserLogins_app 1001 1003 1004 "XX") by lia.
  vm_compute. reflexivity.
Defined.

Lemma len_pretty_N_go_mono x s :
  (Py.len s ≤ Py.len (pretty_N_go x s))%nat.
Proof.
  revert s. induction (N.lt_wf_0 x) as [x _ IH]; intros s.
  assert (x = 0 ∨ 0 < x)%N as [->|Hx] by lia.
  - by rewrite pretty_N_go_0.
  - rewrite pretty_N_go_step by done.
    etrans; [|apply IH; by apply N.div_lt]. unfold Py.len. simpl. lia.
Qed.

Lemma len_pretty_N_go_le (k : nat) x s :
  (x < 10 ^ N.of_nat k)%N →
  (Py.len (pretty_N_go x s) ≤ k + Py.len s)%nat.
Proof.
  revert x s. induction k as [|k IH]; intros x s Hx.
  - assert (x = 0%N) as -> by (simpl in Hx; lia). by rewrite pretty_N_go_0.
  - assert (x = 0 ∨ 0 < x)%N as [->|Hpos] by lia.
    { rewrite pretty_N_go_0. lia. }
    rewrite pretty_N_go_step by done.
    rewrite Nat2N.inj_succ, N.pow_succ_r' in Hx.
    etrans; [apply IH; by apply N.Div0.div_lt_upper_bound|].
    unfold Py.len. simpl. lia.
Qed.

Lemma len_pretty_N_go_ge (k : nat) x s :
  (10 ^ N.of_nat k ≤ x)%N →
  (S k + Py.len s ≤ Py.len (pretty_N_go x s))%nat.
Proof.
  revert x s. induction k as [|k IH]; intros x s Hx.
  - simpl in Hx. rewrite pretty_N_go_step by lia.
    etrans; [|apply len_pretty_N_go_mono]. unfold Py.len. simpl. lia.
  - rewrite Nat2N.inj_succ, N.pow_succ_r' in Hx.
    assert (0 < 10 ^ N.of_nat k)%N by (apply N.neq_0_lt_0, N.pow_nonzero; lia).
    rewrite pretty_N_go_step by lia.
    etrans; [|apply IH; apply N.div_le_lower_bound; lia].
    unfold Py.len. simpl. lia.
Qed.

Lemma len_str_small (i : Z) : 0 ≤ i < 100000 → (Py.len (Py.str i) ≤ 5)%nat.
Proof.
  intros Hi. rewrite str_nonneg by lia. unfold pretty, pretty_N.
  case_decide; [unfold Py.len; simpl; lia|].
  etrans; [apply (len_pretty_N_go_le 5); simpl; lia|]. unfold Py.len. simpl. lia.
Qed.

Lemma len_str_large (i : Z) : 100000 ≤ i → (5 < Py.len (Py.str i))%nat.
Proof.
  intros Hi. rewrite str_nonneg by lia. unfold pretty, pretty_N.
  case_decide; [lia|].
  pose proof (len_pretty_N_go_ge 5 (Z.to_N i) "") as Hge.
  unfold Py.len in *. simpl in Hge. apply Hge. lia.
Qed.

Lemma elem_of_generateUserLogins (L H : Z) (P : string) i login :
  (i, login) ∈ generateUserLogins L H P
  ↔ login = P +:+ Py.zfill 5 (Py.str i) ∧ L ≤ i < H.
Proof.
  unfold generateUserLogins, Py.range. rewrite list_elem_of_fmap.
  setoid_rewrite elem_of_seqZ. split.
  - intros (j & [= -> ->] & Hj). split; [done|lia].
  - intros [-> Hi]. exists i. split; [done|lia].
Qed.

(** X11: Uids from 0 to 99999 give logins of one width, the prefix and five
    characters; from 100000 on the login is longer: the prefix and all the
    digits of the uid. *)
Theorem login_width (L H : Z) (P : string) (i : Z) (login : string) :
  (i, login) ∈ generateUserLogins L H P → 0 ≤ i →
  (i < 100000 → Py.len login = (Py.len P + 5)%nat)
  ∧ (100000 ≤ i →
       login = P +:+ Py.str i ∧ (Py.len P + 5 < Py.len login)%nat).
Proof.
  intros [-> _]%elem_of_generateUserLogins Hi. split.
  - intros Hsmall. rewrite len_app, len_zfill.
    pose proof (len_str_small i). lia.
  - intros Hlarge. pose proof (len_str_large i Hlarge) as Hlen.
    assert (Py.zfill 5 (Py.str i) = Py.str i) as ->.
    { unfold Py.zfill. rewrite bool_decide_eq_true_2 by lia. done. }
    split; [done|]. rewrite len_app. lia.
Qed.

Lemma login_width_witness :
  Py.len "XX00042" = (Py.len "XX" + 5)%nat
  ∧ ("XX123456" = "XX" +:+ Py.str 123456).
Proof.
  destruct (login_width 42 43 "XX" 42 "XX00042") as [Hsmall _];
    [by apply elem_of_generateUserLogins; vm_compute|lia|].
  destruct (login_width 123456 123457 "XX" 123456 "XX123456") as [_ Hlarge];
    [by apply elem_of_generateUserLogins; vm_compute|lia|].
  split; [apply Hsmall; lia|apply Hlarge; lia].
Defined.

(** X12: A negative uid keeps its minus sign in front of the padding: the login
    is the prefix, the sign, the zeros and then the digits. *)
Theorem login_negative (L H : Z) (P : string) (i : Z) (login : string) :
  (i, login) ∈ generateUserLogins L H P → i < 0 →
  login = P +:+ "-" +:+ Py.zeros (4 - Py.len (Py.str (- i))) +:+ Py.str (- i).
Proof.
  intros [-> _]%elem_of_generateUserLogins Hi.
  rewrite (str_neg i), (str_nonneg (- i)) by lia.
  rewrite zfill_minus. f_equal.
Qed.

Lemma login_negative_witness :
  "XX-0042" = "XX" +:+ "-" +:+ Py.zeros (4 - Py.len (Py.str (- -42)))
              +:+ Py.str (- -42).
Proof.
  apply (login_negative (-42) (-41) "XX" (-42) "XX-0042"); [|lia].
  by apply elem_of_generateUserLogins; vm_compute.
Defined.

(** ** The error log *)

Lemma errors_of_app a b : errors_of (a ++ b) = errors_of a ++ errors_of b.
Proof. unfold errors_of. by rewrite filter_app, fmap_app. Qed.

Lemma errors_of_error msg entries :
  errors_of ((ERROR, msg) :: entries) = msg :: errors_of entries.
Proof. unfold errors_of. rewrite filter_cons. by rewrite decide_True. Qed.

Lemma refused_bodies_app a b :
  refused_bodies (a ++ b) = refused_bodies a ++ refused_bodies b.
Proof. unfold refused_bodies. by rewrite filter_app, fmap_app. Qed.

Lemma refused_bodies_accepted req r calls :
  accepted r → refused_bodies ((req, r) :: calls) = refused_bodies calls.
Proof.
  intros Ha. unfold refused_bodies. rewrite filter_cons.
  rewrite decide_False; [done|]. simpl. by intros Hno.
Qed.

Lemma refused_bodies_refused req r calls :
  ¬ accepted r →
  refused_bodies ((req, r) :: calls) = text r :: refused_bodies calls.
Proof.
  intros Ha. unfold refused_bodies. rewrite filter_cons.
  by rewrite decide_True.
Qed.

Section error_log.

Variable cfg : config.
Variable srv : server.

Lemma logs_quiet {A} (m : M A) :
  (∀ w, trace (m w).2 = trace w ∧ log (m w).2 = log w) → logs_refusals m.
Proof.
  intros Hm w. destruct (Hm w) as [Ht Hl]. exists [], [].
  by rewrite Ht, Hl, !app_nil_r.
Qed.

Lemma logs_ret {A} (a : A) : logs_refusals (mret a).
Proof. by apply logs_quiet. Qed.

Lemma logs_json_get r key : logs_refusals (json_get r key).
Proof.
  apply logs_quiet. intros w. unfold json_get.
  destruct (json_body r) as [[obj|]|]; [|done..]. by destruct (obj !! key).
Qed.

Lemma logs_headers_get r name : logs_refusals (headers_get r name).
Proof.
  apply logs_quiet. intros w. unfold headers_get.
  by destruct (headers r !! Py.lower name).
Qed.

Lemma logs_extract_luma_id location : logs_refusals (extract_luma_id location).
Proof.
  apply logs_quiet. intros w. unfold extract_luma_id, unpack2.
  by destruct (Py.rsplit1 "/" location) as [|? [|? [|? ?]]].
Qed.

Lemma logs_writeUserAccounts prefix users :
  logs_refusals (writeUserAccounts prefix users).
Proof. apply logs_quiet. intros w. by rewrite run_writeUserAccounts. Qed.

Lemma logs_LOG_info msg : logs_refusals (LOG_info msg).
Proof. intros w. by exists [], [(INFO, msg)]; rewrite app_nil_r. Qed.

Lemma logs_bind {A B} (m : M A) (k : A → M B) :
  logs_refusals m → (∀ a, logs_refusals (k a)) → logs_refusals (m ≫= k).
Proof.
  intros Hm Hk w. destruct (Hm w) as (calls1 & entries1 & Ht1 & Hl1 & He1).
  rewrite run_bind. destruct (m w) as [[a|e] w1]; simpl in *.
  - destruct (Hk a w1) as (calls2 & entries2 & Ht2 & Hl2 & He2).
    exists (calls1 ++ calls2), (entries1 ++ entries2).
    rewrite Ht2, Ht1, Hl2, Hl1, !app_assoc, errors_of_app, refused_bodies_app.
    by rewrite He1, He2.
  - by exists calls1, entries1.
Qed.

Lemma logs_for {A} (xs : list A) (body : A → M unit) :
  (∀ x, logs_refusals (body x)) → logs_refusals (for_ xs body).
Proof.
  intros Hbody. induction xs as [|x xs IH]; [apply logs_ret|].
  apply (logs_bind (body x) (λ _, for_ xs body)); auto.
Qed.

Lemma logs_call {A} (req : request) (k : response → M A) :
  (∀ r, logs_refusals (k r)) →
  logs_refusals (r ← send srv req; checkResponse r;; k r).
Proof.
  intros Hk w.
  set (r := srv (trace w) req).
  set (w1 := World (trace w ++ [(req, r)]) (log w) (files w)).
  assert ((r ← send srv req; checkResponse r;; k r) w
          = match checkResponse r w1 with
            | (Ok _, w2) => k r w2
            | (Raise e, w2) => (Raise e, w2)
            end) as -> by reflexivity.
  rewrite run_checkResponse. repeat case_bool_decide.
  - destruct (Hk r w1) as (calls & entries & Ht & Hl & He).
    exists ((req, r) :: calls), entries.
    rewrite Ht, Hl, refused_bodies_accepted by done. simpl.
    by rewrite <-app_assoc.
  - exists [(req, r)], [(ERROR, text r)].
    by rewrite refused_bodies_refused.
  - destruct (Hk r (log_error (text r) w1)) as (calls & entries & Ht & Hl & He).
    exists ((req, r) :: calls), ((ERROR, text r) :: entries).
    rewrite Ht, Hl, refused_bodies_refused by done. simpl.
    rewrite <-!app_assoc. split_and!; [done..|].
    by rewrite errors_of_error, He.
Qed.

Lemma logs_call_last (req : request) :
  logs_refusals (r ← send srv req; checkResponse r).
Proof.
  intros w.
  set (r := srv (trace w) req).
  set (w1 := World (trace w ++ [(req, r)]) (log w) (files w)).
  assert ((r ← send srv req; checkResponse r) w = checkResponse r w1)
    as -> by reflexivity.
  rewrite run_checkResponse. repeat case_bool_decide.
  - exists [(req, r)], []. rewrite refused_bodies_accepted by done.
    simpl. by rewrite app_nil_r.
  - exists [(req, r)], [(ERROR, text r)]. by rewrite refused_bodies_refused.
  - exists [(req, r)], [(ERROR, text r)]. by rewrite refused_bodies_refused.
Qed.

Lemma logs_addUsersToOnezone users :
  logs_refusals (addUsersToOnezone cfg srv users).
Proof.
  apply logs_for. intros user.
  apply logs_bind; [apply logs_LOG_info|]. intros _. apply logs_call_last.
Qed.

Lemma logs_getUserIdsAndTokens_loop user_logins result :
  logs_refusals (getUserIdsAndTokens_loop cfg srv user_logins result).
Proof.
  revert result. induction user_logins as [|user rest IH]; intros result.
  - apply logs_ret.
  - rewrite harvest_loop_cons. apply logs_call. intros r1.
    apply logs_bind; [apply logs_json_get|]. intros user_id.
    apply logs_bind; [apply logs_LOG_info|]. intros _.
    apply logs_call. intros r2.
    apply logs_bind; [apply logs_json_get|]. intros user_token.
    apply IH.
Qed.

Lemma logs_addUsersToSpace space_id users :
  logs_refusals (addUsersToSpace cfg srv space_id users).
Proof.
  apply logs_for. intros [[[uid login] user_id] user_token].
  apply logs_bind; [apply logs_LOG_info|]. intros _. apply logs_call_last.
Qed.

Lemma logs_addUserMappingsToLUMA storage_name users space_id default_gid :
  logs_refusals
    (addUserMappingsToLUMA cfg srv storage_name users space_id default_gid).
Proof.
  apply logs_call. intros r0.
  apply logs_for. intros [[[uid login] user_id] user_token].
  apply logs_bind; [apply logs_LOG_info|]. intros _.
  apply logs_call. intros r1.
  apply logs_bind; [apply logs_headers_get|]. intros location.
  apply logs_bind; [apply logs_extract_luma_id|]. intros luma_id.
  apply logs_call_last.
Qed.

Lemma logs_main : logs_refusals (main cfg srv).
Proof.
  unfold main. cbv zeta.
  apply logs_bind; [apply logs_addUsersToOnezone|]. intros _.
  apply logs_bind; [apply logs_getUserIdsAndTokens_loop|]. intros users.
  apply logs_bind; [apply logs_addUsersToSpace|]. intros _.
  apply logs_bind; [apply logs_addUserMappingsToLUMA|]. intros _.
  apply logs_writeUserAccounts.
Qed.

(** X13: The ERROR lines a run logs are the bodies of the answers it got with a
    status outside 200, 201, 202 and 204: one line per such answer, in the
    order of the calls, and no other ERROR line, however the run ends. *)
Theorem main_error_log (w : world) :
  ∃ calls entries,
    trace (main cfg srv w).2 = trace w ++ calls
    ∧ log (main cfg srv w).2 = log w ++ entries
    ∧ errors_of entries = refused_bodies calls.
Proof. apply logs_main. Qed.

End error_log.

Example main_error_log_203 :
  errors_of (log (main default_config (server_failing_at 10 203) world0).2)
  = ["refused"].
Proof. by vm_compute. Qed.

(** ** Response validator: all cases *)

(** X14: [checkResponse] raises exactly on the statuses 400..599, and what it
    raises is [HTTPError] with the response; it logs the body, once, at
    ERROR level exactly when the status is outside 200, 201, 202 and 204;
    it makes no call and writes no file. *)
Theorem checkResponse_behaviour (res : response) (w : world) :
  ((∃ e, (checkResponse res w).1 = Raise e) ↔ rejected res)
  ∧ (∀ e, (checkResponse res w).1 = Raise e → e = HTTPError res)
  ∧ (accepted res → log (checkResponse res w).2 = log w)
  ∧ (¬ accepted res →
     log (checkResponse res w).2 = log w ++ [(ERROR, text res)])
  ∧ trace (checkResponse res w).2 = trace w
  ∧ files (checkResponse res w).2 = files w.
Proof.
  rewrite run_checkResponse.
  repeat case_bool_decide; simpl; split_and!; try done.
  - split; [by intros [e He]|]. intros Hr. by apply accepted_not_rejected in Hr.
  - split; [done|]. eauto.
  - by intros e [= <-].
  - split; [by intros [e He]|done].
Qed.
